(** * px4ctrl: thrust-model estimator and control laws (controller.cpp)

    A shallow embedding of [src/px4ctrl/src/controller.cpp].

    Numbers.  The C++ code computes on [double].  Here every [double] is a
    rational number ([Q]) and every operation is the exact one, so rounding
    is abstracted away and the results below are statements about exact
    arithmetic.  Equality of computed values is [Qeq] ([==]); where both
    sides are built by the same operations it is Leibniz equality.
    Division by zero is where the two differ: IEEE gives an infinity or a
    NaN, [Qdiv] gives [0].  Theorems that depend on the value of a quotient
    therefore assume that its divisor is not zero.

    Time.  [ros::Time] is a count of nanoseconds ([Z]).  The two
    comparisons of [estimateThrustModel] on the double [toSec()] of a
    difference of time stamps are the one place where the rounding of
    [double] decides a branch on values that are exact in the program; they
    are modelled as the program takes them, on the count of nanoseconds
    (see [time_passed_gt_0_045]).  [ros::Time::now()] is an input of the
    function that calls it.

    Queue.  [std::queue] is a list whose head is [front()]: [push] appends
    at the end and [pop] removes the head. *)

From Stdlib Require Import ZArith QArith Qabs Qfield Lqa Lia List Bool.
From Stdlib Require NsatzTactic QNsatz.
From Corelib Require PrimInt63 PrimFloat.
Import ListNotations.

Open Scope Q_scope.

(** ** Comparisons on [double] *)

Definition Qlt_bool (x y : Q) : bool := negb (Qle_bool y x).

(** ** The C math library

    [std::sin], [std::cos], [atan2] and [sqrt] are external; the model
    takes them as an interface.  No result below depends on what they
    compute. *)

Class Libm : Type := {
  m_sin : Q -> Q;
  m_cos : Q -> Q;
  m_atan2 : Q -> Q -> Q;
  m_sqrt : Q -> Q
}.

(** ** Eigen: vectors, matrices, quaternions *)

Record Vector3d : Type := mkV3 { vx : Q; vy : Q; vz : Q }.

Definition vadd (a b : Vector3d) : Vector3d :=
  mkV3 (vx a + vx b) (vy a + vy b) (vz a + vz b).

Definition vsub (a b : Vector3d) : Vector3d :=
  mkV3 (vx a - vx b) (vy a - vy b) (vz a - vz b).

(** [K.asDiagonal() * v] *)
Definition asDiagonal_mul (k v : Vector3d) : Vector3d :=
  mkV3 (vx k * vx v) (vy k * vy v) (vz k * vz v).

Definition vscale_div (v : Vector3d) (s : Q) : Vector3d :=
  mkV3 (vx v / s) (vy v / s) (vz v / s).

Definition dot (a b : Vector3d) : Q :=
  vx a * vx b + vy a * vy b + vz a * vz b.

Definition cross (a b : Vector3d) : Vector3d :=
  mkV3 (vy a * vz b - vz a * vy b)
       (vz a * vx b - vx a * vz b)
       (vx a * vy b - vy a * vx b).

Definition squaredNorm (v : Vector3d) : Q := dot v v.

(** [MatrixBase::normalized()]: a vector whose squared norm is not
    positive is returned as it is. *)
Definition normalized `{Libm} (n : Vector3d) : Vector3d :=
  let z := squaredNorm n in
  if Qlt_bool 0 z then vscale_div n (m_sqrt z) else n.

(** A 3x3 matrix, by columns. *)
Record Matrix3d : Type := mkM3 { col0 : Vector3d; col1 : Vector3d; col2 : Vector3d }.

(** [mat.coeff(i,j)], row [i] and column [j] in [0..2]. *)
Definition vcoeff (v : Vector3d) (i : nat) : Q :=
  match i with O => vx v | S O => vy v | _ => vz v end.

Definition mcol (m : Matrix3d) (j : nat) : Vector3d :=
  match j with O => col0 m | S O => col1 m | _ => col2 m end.

Definition coeff (m : Matrix3d) (i j : nat) : Q := vcoeff (mcol m j) i.

Definition trace (m : Matrix3d) : Q := coeff m 0 0 + coeff m 1 1 + coeff m 2 2.

Record Quaterniond : Type := mkQuat { qw : Q; qx : Q; qy : Q; qz : Q }.

(** Hamilton product, [Quaternion::operator*]. *)
Definition qmul (a b : Quaterniond) : Quaterniond :=
  mkQuat (qw a * qw b - qx a * qx b - qy a * qy b - qz a * qz b)
         (qw a * qx b + qx a * qw b + qy a * qz b - qz a * qy b)
         (qw a * qy b + qy a * qw b + qz a * qx b - qx a * qz b)
         (qw a * qz b + qz a * qw b + qx a * qy b - qy a * qx b).

Definition qsquaredNorm (q : Quaterniond) : Q :=
  qw q * qw q + qx q * qx q + qy q * qy q + qz q * qz q.

Definition conjugate (q : Quaterniond) : Quaterniond :=
  mkQuat (qw q) (- qx q) (- qy q) (- qz q).

(** [Quaternion::inverse()]: the conjugate over the squared norm, and the
    zero quaternion when the squared norm is not positive. *)
Definition inverse (q : Quaterniond) : Quaterniond :=
  let n2 := qsquaredNorm q in
  if Qlt_bool 0 n2 then
    let c := conjugate q in
    mkQuat (qw c / n2) (qx c / n2) (qy c / n2) (qz c / n2)
  else mkQuat 0 0 0 0.

(** [Quaternion::toRotationMatrix()]. *)
Definition toRotationMatrix (q : Quaterniond) : Matrix3d :=
  let tx := 2 * qx q in
  let ty := 2 * qy q in
  let tz := 2 * qz q in
  let twx := tx * qw q in
  let twy := ty * qw q in
  let twz := tz * qw q in
  let txx := tx * qx q in
  let txy := ty * qx q in
  let txz := tz * qx q in
  let tyy := ty * qy q in
  let tyz := tz * qy q in
  let tzz := tz * qz q in
  mkM3 (mkV3 (1 - (tyy + tzz)) (txy + twz) (txz - twy))
       (mkV3 (txy - twz) (1 - (txx + tzz)) (tyz + twx))
       (mkV3 (txz + twy) (tyz - twx) (1 - (txx + tyy))).

Inductive Axis : Type := UnitX | UnitY | UnitZ.

(** [Quaterniond(AngleAxisd(angle, axis))] for a coordinate axis. *)
Definition AngleAxisd `{Libm} (angle : Q) (axis : Axis) : Quaterniond :=
  let ha := (1 # 2) * angle in
  let c := m_cos ha in
  let s := m_sin ha in
  match axis with
  | UnitX => mkQuat c (s * 1) (s * 0) (s * 0)
  | UnitY => mkQuat c (s * 0) (s * 1) (s * 0)
  | UnitZ => mkQuat c (s * 0) (s * 0) (s * 1)
  end.

(** Writing coefficient [i] (0 = x, 1 = y, 2 = z) of a quaternion. *)
Definition set_vec (q : Quaterniond) (i : nat) (v : Q) : Quaterniond :=
  match i with
  | O => mkQuat (qw q) v (qy q) (qz q)
  | S O => mkQuat (qw q) (qx q) v (qz q)
  | _ => mkQuat (qw q) (qx q) (qy q) v
  end.

(** [Quaterniond(Matrix3d)]: the conversion of a rotation matrix. *)
Definition Quaterniond_of_matrix `{Libm} (mat : Matrix3d) : Quaterniond :=
  let t := trace mat in
  if Qlt_bool 0 t then
    let t1 := m_sqrt (t + 1) in
    let w := (1 # 2) * t1 in
    let t2 := (1 # 2) / t1 in
    mkQuat w
           ((coeff mat 2 1 - coeff mat 1 2) * t2)
           ((coeff mat 0 2 - coeff mat 2 0) * t2)
           ((coeff mat 1 0 - coeff mat 0 1) * t2)
  else
    let i0 := if Qlt_bool (coeff mat 0 0) (coeff mat 1 1) then 1%nat else 0%nat in
    let i := if Qlt_bool (coeff mat i0 i0) (coeff mat 2 2) then 2%nat else i0 in
    let j := ((i + 1) mod 3)%nat in
    let k := ((j + 1) mod 3)%nat in
    let t1 := m_sqrt (coeff mat i i - coeff mat j j - coeff mat k k + 1) in
    let t2 := (1 # 2) / t1 in
    let q0 := mkQuat ((coeff mat k j - coeff mat j k) * t2) 0 0 0 in
    let q1 := set_vec q0 i ((1 # 2) * t1) in
    let q2 := set_vec q1 j ((coeff mat j i + coeff mat i j) * t2) in
    set_vec q2 k ((coeff mat k i + coeff mat i k) * t2).

(** ** Data of the controller (controller.h, input.h)

    The header is not part of the sources at hand; the records list the
    members that controller.cpp reads or writes. *)

Definition Time : Type := Z.

(** The exact value, in seconds, of the difference [a - b]; [toSec()]
    returns its rounding to a double. *)
Definition toSec_diff (a b : Time) : Q := (a - b)%Z # 1000000000.

Record Gain_t : Type := mkGain {
  Kp0 : Q; Kp1 : Q; Kp2 : Q;
  Kv0 : Q; Kv1 : Q; Kv2 : Q
}.

Record ThrustMapping_t : Type := mkThrMap { hover_percentage : Q }.

Record Parameter_t : Type := mkParam {
  gain : Gain_t;
  thr_map : ThrustMapping_t;
  gra : Q
}.

Record Desired_State_t : Type := mkDes {
  des_p : Vector3d; des_v : Vector3d; des_a : Vector3d; des_yaw : Q
}.

Record Odom_Data_t : Type := mkOdom {
  odom_p : Vector3d; odom_v : Vector3d; odom_q : Quaterniond
}.

Record Imu_Data_t : Type := mkImu { imu_q : Quaterniond }.

Record Controller_Output_t : Type := mkOut { u_q : Quaterniond; u_thrust : Q }.

(** The fields of [quadrotor_msgs::Px4ctrlDebug] that the control laws
    assign. *)
Record Px4ctrlDebug : Type := mkDebug {
  des_v_x : Q; des_v_y : Q; des_v_z : Q;
  des_a_x : Q; des_a_y : Q; des_a_z : Q;
  des_q_x : Q; des_q_y : Q; des_q_z : Q; des_q_w : Q;
  des_thr : Q
}.

(** One entry of [timed_thrust_]: [std::pair<ros::Time, double>]. *)
Definition TimedThrust : Type := (Time * Q)%type.

(** The members of [ControlBase]. *)
Record ControlBase : Type := mkControl {
  param_ : Parameter_t;
  debug_msg_ : Px4ctrlDebug;
  timed_thrust_ : list TimedThrust;
  thr2acc_ : Q;
  P_ : Q;
  rho2_ : Q
}.

Definition set_timed_thrust (c : ControlBase) (q : list TimedThrust) : ControlBase :=
  mkControl (param_ c) (debug_msg_ c) q (thr2acc_ c) (P_ c) (rho2_ c).

Definition set_mapping (c : ControlBase) (thr2acc P : Q) : ControlBase :=
  mkControl (param_ c) (debug_msg_ c) (timed_thrust_ c) thr2acc P (rho2_ c).

Definition set_debug_msg (c : ControlBase) (d : Px4ctrlDebug) : ControlBase :=
  mkControl (param_ c) d (timed_thrust_ c) (thr2acc_ c) (P_ c) (rho2_ c).

(** ** ControlBase *)

Definition fromQuaternion2yaw `{Libm} (q : Quaterniond) : Q :=
  m_atan2 (2 * (qx q * qy q + qw q * qz q))
          (qw q * qw q + qx q * qx q - qy q * qy q - qz q * qz q).

Definition computeDesiredCollectiveThrustSignal (c : ControlBase) (des_acc : Vector3d) : Q :=
  vz des_acc / thr2acc_ c.

(** The two thresholds of [estimateThrustModel], in seconds. *)
Definition t_max : Q := 45 # 1000.
Definition t_min : Q := 35 # 1000.

(** The two comparisons on [time_passed] (lines 30 and 36), as functions of
    the difference [d = t_now - t_t.first] in nanoseconds.

    [time_passed] is the double [(t_now - t_t.first).toSec()], which
    [ros::Duration] computes as [sec + 1e-9 * nsec] in double arithmetic,
    and it is compared with the doubles nearest to 0.045 and 0.035.  The
    product [1e-9 * 45000000.0] is one unit in the last place above the
    double [0.045], and [1e-9 * 44999999.0] is not above it; so
    [time_passed > 0.045] holds from 45 000 000 ns on.  The product
    [1e-9 * 35000000.0] is not below the double [0.035], and
    [1e-9 * 34999999.0] is; so, the product being monotone,
    [time_passed < 0.035] holds up to 34 999 999 ns.  [Double] below
    states the two comparisons on the doubles themselves, and
    [DoubleFacts] checks them against these definitions at the thresholds
    and at other differences. *)
Definition time_passed_gt_0_045 (d : Z) : bool := (45000000 <=? d)%Z.
Definition time_passed_lt_0_035 (d : Z) : bool := (d <? 35000000)%Z.

(** The same two comparisons in IEEE binary64, for a difference of less
    than a second ([sec = 0]). *)
Module Double.
Import PrimInt63 PrimFloat.
#[local] Set Warnings "-inexact-float".

(** [Duration::toSec()] *)
Definition toSec (sec nsec : int) : float :=
  PrimFloat.add (PrimFloat.of_uint63 sec)
                (PrimFloat.mul 1e-9%float (PrimFloat.of_uint63 nsec)).

Definition gt_0_045 (nsec : int) : bool :=
  PrimFloat.ltb 0.045%float (toSec 0%uint63 nsec).

Definition lt_0_035 (nsec : int) : bool :=
  PrimFloat.ltb (toSec 0%uint63 nsec) 0.035%float.

(** Whether the doubles and the thresholds on nanoseconds decide alike on
    a difference, given as a primitive integer [n] and as the same number
    [d]. *)
Definition agree (n : int) (d : Z) : bool :=
  Bool.eqb (gt_0_045 n) (time_passed_gt_0_045 d)
  && Bool.eqb (lt_0_035 n) (time_passed_lt_0_035 d).

(** Differences around and away from the two thresholds. *)
Definition samples : list (int * Z) :=
  [ (0%uint63, 0%Z); (1%uint63, 1%Z); (10000000%uint63, 10000000%Z);
    (34000000%uint63, 34000000%Z); (34999998%uint63, 34999998%Z);
    (34999999%uint63, 34999999%Z); (35000000%uint63, 35000000%Z);
    (35000001%uint63, 35000001%Z); (36000000%uint63, 36000000%Z);
    (40000000%uint63, 40000000%Z); (44000000%uint63, 44000000%Z);
    (44999998%uint63, 44999998%Z); (44999999%uint63, 44999999%Z);
    (45000000%uint63, 45000000%Z); (45000001%uint63, 45000001%Z);
    (46000000%uint63, 46000000%Z); (100000000%uint63, 100000000%Z);
    (999999999%uint63, 999999999%Z) ].

Definition ns_44999999 : int := 44999999%uint63.
Definition ns_45000000 : int := 45000000%uint63.
Definition ns_34999999 : int := 34999999%uint63.
Definition ns_35000000 : int := 35000000%uint63.
End Double.

(** The four assignments of the recursive least squares step (lines 51-54). *)
Definition rls_step (c : ControlBase) (thr est_a_z : Q) : ControlBase :=
  let gamma := 1 / (rho2_ c + thr * P_ c * thr) in
  let K := gamma * P_ c * thr in
  let thr2acc' := thr2acc_ c + K * (est_a_z - thr * thr2acc_ c) in
  let P' := (1 - K * thr) * P_ c / rho2_ c in
  set_mapping c thr2acc' P'.

(** The [while] loop of [estimateThrustModel]: [q] is what is left of
    [timed_thrust_]; every iteration that continues has popped the head,
    so the loop is a recursion on the queue. *)
Fixpoint estimateThrustModel_loop (t_now : Time) (est_a : Vector3d)
    (c : ControlBase) (q : list TimedThrust) : bool * ControlBase :=
  match q with
  | [] => (false, set_timed_thrust c [])
  | t_t :: rest =>
      let time_passed := (t_now - fst t_t)%Z in
      if time_passed_gt_0_045 time_passed then
        estimateThrustModel_loop t_now est_a c rest
      else if time_passed_lt_0_035 time_passed then
        (false, set_timed_thrust c q)
      else
        let thr := snd t_t in
        (true, rls_step (set_timed_thrust c rest) thr (vz est_a))
  end.

(** [param] is not used by the function. *)
Definition estimateThrustModel (t_now : Time) (est_a : Vector3d) (param : Parameter_t)
    (c : ControlBase) : bool * ControlBase :=
  estimateThrustModel_loop t_now est_a c (timed_thrust_ c).

Definition resetThrustMapping (c : ControlBase) : ControlBase :=
  set_mapping c (gra (param_ c) / hover_percentage (thr_map (param_ c))) 1000000.

(** ** The control laws *)

(** Lines 129-132 and 213-216: push the new pair, then pop while more than
    100 are queued. *)
Fixpoint pop_while_over_100 (q : list TimedThrust) : list TimedThrust :=
  match q with
  | [] => []
  | _ :: rest => if (100 <? length q)%nat then pop_while_over_100 rest else q
  end.

Definition push_timed_thrust (c : ControlBase) (t_now : Time) (thrust : Q) : ControlBase :=
  set_timed_thrust c (pop_while_over_100 (timed_thrust_ c ++ [(t_now, thrust)])).

(** Lines 83-88 and 150-156. *)
Definition desired_acceleration (c : ControlBase) (des : Desired_State_t)
    (odom : Odom_Data_t) : Vector3d :=
  let Kp := mkV3 (Kp0 (gain (param_ c))) (Kp1 (gain (param_ c))) (Kp2 (gain (param_ c))) in
  let Kv := mkV3 (Kv0 (gain (param_ c))) (Kv1 (gain (param_ c))) (Kv2 (gain (param_ c))) in
  let des_acc :=
    vadd (vadd (des_a des) (asDiagonal_mul Kv (vsub (des_v des) (odom_v odom))))
         (asDiagonal_mul Kp (vsub (des_p des) (odom_p odom))) in
  vadd des_acc (mkV3 0 0 (gra (param_ c))).

(** Lines 113-126 and 197-210. *)
Definition write_debug_msg (des : Desired_State_t) (des_acc : Vector3d)
    (u : Controller_Output_t) : Px4ctrlDebug :=
  mkDebug (vx (des_v des)) (vy (des_v des)) (vz (des_v des))
          (vx des_acc) (vy des_acc) (vz des_acc)
          (qx (u_q u)) (qy (u_q u)) (qz (u_q u)) (qw (u_q u))
          (u_thrust u).

Section ControlLaws.
Context {M : Libm}.

(** The attitude [q] of [LinearControl::calculateControl] before the
    frame correction (lines 92-100). *)
Definition LinearControl_q (c : ControlBase) (des : Desired_State_t)
    (odom : Odom_Data_t) : Quaterniond :=
  let des_acc := desired_acceleration c des odom in
  let yaw_odom := fromQuaternion2yaw (odom_q odom) in
  let sin := m_sin yaw_odom in
  let cos := m_cos yaw_odom in
  let roll := (vx des_acc * sin - vy des_acc * cos) / gra (param_ c) in
  let pitch := (vx des_acc * cos + vy des_acc * sin) / gra (param_ c) in
  qmul (qmul (AngleAxisd (des_yaw des) UnitZ) (AngleAxisd pitch UnitY))
       (AngleAxisd roll UnitX).

Definition LinearControl_calculateControl (t_now : Time) (des : Desired_State_t)
    (odom : Odom_Data_t) (imu : Imu_Data_t) (c : ControlBase)
    : ControlBase * Controller_Output_t * Px4ctrlDebug :=
  let des_acc := desired_acceleration c des odom in
  let thrust := computeDesiredCollectiveThrustSignal c des_acc in
  let q := LinearControl_q c des odom in
  let u := mkOut (qmul (qmul (imu_q imu) (inverse (odom_q odom))) q) thrust in
  let dbg := write_debug_msg des des_acc u in
  let c1 := set_debug_msg c dbg in
  let c2 := push_timed_thrust c1 t_now (u_thrust u) in
  (c2, u, dbg).

(** The desired rotation matrix of [GeometricControl::calculateControl]
    (lines 164-174). *)
Definition GeometricControl_b3c (c : ControlBase) (des : Desired_State_t)
    (odom : Odom_Data_t) : Vector3d :=
  normalized (desired_acceleration c des odom).

Definition a_yaw (des : Desired_State_t) : Vector3d :=
  mkV3 (m_cos (des_yaw des)) (m_sin (des_yaw des)) 0.

Definition GeometricControl_b2c (c : ControlBase) (des : Desired_State_t)
    (odom : Odom_Data_t) : Vector3d :=
  normalized (cross (GeometricControl_b3c c des odom) (a_yaw des)).

Definition GeometricControl_R_des (c : ControlBase) (des : Desired_State_t)
    (odom : Odom_Data_t) : Matrix3d :=
  let b3c := GeometricControl_b3c c des odom in
  let b2c := GeometricControl_b2c c des odom in
  mkM3 (cross b2c b3c) b2c b3c.

(** The attitude [q] before the frame correction (line 177). *)
Definition GeometricControl_q (c : ControlBase) (des : Desired_State_t)
    (odom : Odom_Data_t) : Quaterniond :=
  Quaterniond_of_matrix (GeometricControl_R_des c des odom).

Definition GeometricControl_calculateControl (t_now : Time) (des : Desired_State_t)
    (odom : Odom_Data_t) (imu : Imu_Data_t) (c : ControlBase)
    : ControlBase * Controller_Output_t * Px4ctrlDebug :=
  let des_acc := desired_acceleration c des odom in
  let b3 := col2 (toRotationMatrix (odom_q odom)) in
  let thrust := dot des_acc b3 / thr2acc_ c in
  let q := GeometricControl_q c des odom in
  let u := mkOut (qmul (qmul (imu_q imu) (inverse (odom_q odom))) q) thrust in
  let dbg := write_debug_msg des des_acc u in
  let c1 := set_debug_msg c dbg in
  let c2 := push_timed_thrust c1 t_now (u_thrust u) in
  (c2, u, dbg).

End ControlLaws.

(** The two subclasses of [ControlBase], and the virtual call. *)
Inductive Controller : Type := LinearControl | GeometricControl.

Definition calculateControl `{Libm} (k : Controller) (t_now : Time) (des : Desired_State_t)
    (odom : Odom_Data_t) (imu : Imu_Data_t) (c : ControlBase)
    : ControlBase * Controller_Output_t * Px4ctrlDebug :=
  match k with
  | LinearControl => LinearControl_calculateControl t_now des odom imu c
  | GeometricControl => GeometricControl_calculateControl t_now des odom imu c
  end.

(** * Notions used in the statements *)

Definition zero3 : Vector3d := mkV3 0 0 0.
Definition qidentity : Quaterniond := mkQuat 1 0 0 0.

Definition zero_matrix : Matrix3d := mkM3 zero3 zero3 zero3.

(** The age of a queued pair at the time of the call, in seconds. *)
Definition age (t_now : Time) (s : TimedThrust) : Q := toSec_diff t_now (fst s).

(** Time stamps in the queue never decrease from the front to the back. *)
Definition stamps_nondecreasing (q : list TimedThrust) : Prop :=
  forall old s rest, q = old ++ s :: rest -> Forall (fun s' => (fst s <= fst s')%Z) rest.

(** Equality of quaternions and vectors as values, component by
    component. *)
Definition quat_eq (a b : Quaterniond) : Prop :=
  qw a == qw b /\ qx a == qx b /\ qy a == qy b /\ qz a == qz b.

Definition veq (a b : Vector3d) : Prop :=
  vx a == vx b /\ vy a == vy b /\ vz a == vz b.

Definition meq (a b : Matrix3d) : Prop :=
  veq (col0 a) (col0 b) /\ veq (col1 a) (col1 b) /\ veq (col2 a) (col2 b).

(** The thrust that a control law commands. *)
Definition control_thrust (k : Controller) (c : ControlBase) (des : Desired_State_t)
    (odom : Odom_Data_t) : Q :=
  match k with
  | LinearControl =>
      computeDesiredCollectiveThrustSignal c (desired_acceleration c des odom)
  | GeometricControl =>
      dot (desired_acceleration c des odom) (col2 (toRotationMatrix (odom_q odom)))
      / thr2acc_ c
  end.

(** The numerator of the commanded thrust: the vertical component of the
    desired acceleration in the linear law, its projection on the current
    body z axis in the geometric law. *)
Definition thrust_numerator (k : Controller) (c : ControlBase) (des : Desired_State_t)
    (odom : Odom_Data_t) : Q :=
  match k with
  | LinearControl => vz (desired_acceleration c des odom)
  | GeometricControl =>
      dot (desired_acceleration c des odom) (col2 (toRotationMatrix (odom_q odom)))
  end.

(** The attitude that a control law computes before the frame
    correction. *)
Definition control_q `{Libm} (k : Controller) (c : ControlBase) (des : Desired_State_t)
    (odom : Odom_Data_t) : Quaterniond :=
  match k with
  | LinearControl => LinearControl_q c des odom
  | GeometricControl => GeometricControl_q c des odom
  end.

(** One call of a control law, as a function of the state. *)
Record Cycle : Type := mkCycle {
  cy_now : Time; cy_des : Desired_State_t; cy_odom : Odom_Data_t; cy_imu : Imu_Data_t
}.

Definition control_cycle `{Libm} (k : Controller) (c : ControlBase) (i : Cycle) : ControlBase :=
  fst (fst (calculateControl k (cy_now i) (cy_des i) (cy_odom i) (cy_imu i) c)).

(** A sequence of calls. *)
Definition control_cycles `{Libm} (k : Controller) (c : ControlBase) (l : list Cycle)
    : ControlBase :=
  fold_left (control_cycle k) l c.

(** The pair that a call records. *)
Definition recorded (k : Controller) (c : ControlBase) (i : Cycle) : TimedThrust :=
  (cy_now i, control_thrust k c (cy_des i) (cy_odom i)).

(** The calls that change a controller. *)
Inductive Call : Type :=
| CallControl (k : Controller) (i : Cycle)
| CallEstimate (t_now : Time) (est_a : Vector3d) (param : Parameter_t)
| CallReset.

Definition call `{Libm} (c : ControlBase) (op : Call) : ControlBase :=
  match op with
  | CallControl k i => control_cycle k c i
  | CallEstimate t_now est_a param => snd (estimateThrustModel t_now est_a param c)
  | CallReset => resetThrustMapping c
  end.

(** A sequence of calls of the estimator, each with its time and its
    measured acceleration. *)
Definition estimator_calls (c : ControlBase) (l : list (Time * Vector3d * Parameter_t))
    : ControlBase :=
  fold_left (fun c i => snd (estimateThrustModel (fst (fst i)) (snd (fst i)) (snd i) c)) l c.

(** The pitch and roll angles of the linear law (lines 92-96). *)
Definition LinearControl_pitch `{Libm} (c : ControlBase) (des : Desired_State_t)
    (odom : Odom_Data_t) : Q :=
  let des_acc := desired_acceleration c des odom in
  let yaw_odom := fromQuaternion2yaw (odom_q odom) in
  let sin := m_sin yaw_odom in
  let cos := m_cos yaw_odom in
  (vx des_acc * cos + vy des_acc * sin) / gra (param_ c).

Definition LinearControl_roll `{Libm} (c : ControlBase) (des : Desired_State_t)
    (odom : Odom_Data_t) : Q :=
  let des_acc := desired_acceleration c des odom in
  let yaw_odom := fromQuaternion2yaw (odom_q odom) in
  let sin := m_sin yaw_odom in
  let cos := m_cos yaw_odom in
  (vx des_acc * sin - vy des_acc * cos) / gra (param_ c).

(** [sin^2 + cos^2] at [x], as the math library computes them. *)
Definition circle_at `{Libm} (x : Q) : Q := m_sin x * m_sin x + m_cos x * m_cos x.

(** The queue as the calls keep it when the clock does not go back: time
    stamps do not decrease and none is later than the time [t] of the last
    call. *)
Definition queue_ok (t : Time) (q : list TimedThrust) : Prop :=
  stamps_nondecreasing q /\ Forall (fun s => (fst s <= t)%Z) q.

Definition qzero : Quaterniond := mkQuat 0 0 0 0.

(** Polynomial identities that follow from polynomial hypotheses. *)
Module Groebner.
Import NsatzTactic QNsatz.
Ltac ideal := nsatz; cbv; discriminate.
End Groebner.

(** * Data for the examples *)

(** ** A math library

    Rational stand-ins for the four library functions: low-order
    approximations that are exact at the arguments met in the examples
    ([sin 0], [cos 0], [atan2 0 x] and the square roots of squares). *)

Definition Qsqrt_floor (x : Q) : Q := Z.sqrt (Qnum x) # Pos.sqrt (Qden x).

Definition libm0 : Libm :=
  {| m_sin := fun x => x;
     m_cos := fun x => 1 - x * x / 2;
     m_atan2 := fun y x => y / x;
     m_sqrt := Qsqrt_floor |}.

(** A second stand-in, whose square root is exact on the squares of
    rationals whatever their representation; its sine and cosine are the
    rational parametrisation of the circle. *)
Definition libm_circle : Libm :=
  {| m_sin := fun x => 2 * x / (1 + x * x);
     m_cos := fun x => (1 - x * x) / (1 + x * x);
     m_atan2 := fun y x => y / x;
     m_sqrt := fun x => Qsqrt_floor (Qred x) |}.

(** A desired acceleration of [(24, 0, 7)] once gravity is added. *)
Definition des_bank : Desired_State_t :=
  mkDes zero3 zero3 (mkV3 24 0 (7 - (981 # 100))) 0.

(** A desired acceleration of [(3, 0, 4)] once gravity is added. *)
Definition des_climb : Desired_State_t :=
  mkDes zero3 zero3 (mkV3 3 0 (4 - (981 # 100))) 0.

(** ** States and inputs *)

Definition param0 : Parameter_t :=
  mkParam (mkGain (3 # 2) (3 # 2) (3 # 2) (3 # 2) (3 # 2) (3 # 2))
          (mkThrMap (1 # 2)) (981 # 100).

Definition debug0 : Px4ctrlDebug := mkDebug 0 0 0 0 0 0 0 0 0 0 0.

(** A controller right after [resetThrustMapping], with forgetting factor
    0.998 and the given queue. *)
Definition control0 (q : list TimedThrust) : ControlBase :=
  resetThrustMapping (mkControl param0 debug0 q 0 0 (998 # 1000)).

(** Milliseconds as a time stamp. *)
Definition ms (n : Z) : Time := (n * 1000000)%Z.

Definition des_hover : Desired_State_t := mkDes zero3 zero3 zero3 0.
Definition odom_level : Odom_Data_t := mkOdom zero3 zero3 qidentity.
Definition imu_level : Imu_Data_t := mkImu qidentity.

(** Cycle number [n], one every 10 ms, hovering. *)
Definition cycle_hover (n : nat) : Cycle :=
  mkCycle (ms (10 * Z.of_nat n)) des_hover odom_level imu_level.

(** An orientation rolled about the x axis: a unit quaternion with
    rational components. *)
Definition q_rolled : Quaterniond := mkQuat (4 # 5) (3 # 5) 0 0.
Definition odom_rolled : Odom_Data_t := mkOdom zero3 zero3 q_rolled.
Definition imu_rolled : Imu_Data_t := mkImu q_rolled.

(** A desired state that asks for free fall: the desired acceleration,
    with gravity added, is the zero vector. *)
Definition des_free_fall : Desired_State_t :=
  mkDes zero3 zero3 (mkV3 0 0 (- (981 # 100))) 0.

(** A desired acceleration along the yaw reference [(1, 0, 0)]. *)
Definition des_along_yaw : Desired_State_t :=
  mkDes zero3 zero3 (mkV3 1 0 (- (981 # 100))) 0.

(** * Properties *)

(** ** Comparisons *)

Lemma Qlt_bool_true (x y : Q) : Qlt_bool x y = true <-> x < y.
Proof.
  unfold Qlt_bool. rewrite negb_true_iff. split; intros H.
  - apply Qnot_le_lt. intros Hle. apply Qle_bool_iff in Hle. congruence.
  - destruct (Qle_bool y x) eqn:E; [|reflexivity].
    apply Qle_bool_iff in E. exfalso. exact (Qlt_not_le _ _ H E).
Qed.

Lemma Qlt_bool_false (x y : Q) : Qlt_bool x y = false <-> y <= x.
Proof.
  unfold Qlt_bool. rewrite negb_false_iff. apply Qle_bool_iff.
Qed.

(** ** The estimator *)

Lemma age_antitone (t_now : Time) (s s' : TimedThrust) :
  (fst s <= fst s')%Z -> age t_now s' <= age t_now s.
Proof.
  intros H. unfold age, toSec_diff, Qle. simpl.
  apply Z.mul_le_mono_nonneg_r; lia.
Qed.

(** The two comparisons in terms of the exact age. *)
Lemma time_passed_gt_0_045_age (t_now : Time) (s : TimedThrust) :
  time_passed_gt_0_045 (t_now - fst s) = true <-> t_max <= age t_now s.
Proof.
  unfold time_passed_gt_0_045, age, toSec_diff, t_max, Qle. cbn [Qnum Qden].
  rewrite Z.leb_le. lia.
Qed.

Lemma time_passed_gt_0_045_age_false (t_now : Time) (s : TimedThrust) :
  time_passed_gt_0_045 (t_now - fst s) = false <-> age t_now s < t_max.
Proof.
  unfold time_passed_gt_0_045, age, toSec_diff, t_max, Qlt. cbn [Qnum Qden].
  rewrite Z.leb_gt. lia.
Qed.

Lemma time_passed_lt_0_035_age (t_now : Time) (s : TimedThrust) :
  time_passed_lt_0_035 (t_now - fst s) = true <-> age t_now s < t_min.
Proof.
  unfold time_passed_lt_0_035, age, toSec_diff, t_min, Qlt. cbn [Qnum Qden].
  rewrite Z.ltb_lt. lia.
Qed.

Lemma time_passed_lt_0_035_age_false (t_now : Time) (s : TimedThrust) :
  time_passed_lt_0_035 (t_now - fst s) = false <-> t_min <= age t_now s.
Proof.
  unfold time_passed_lt_0_035, age, toSec_diff, t_min, Qle. cbn [Qnum Qden].
  rewrite Z.ltb_ge. lia.
Qed.

Lemma age_lt_t_max (t_now : Time) (s : TimedThrust) :
  age t_now s < t_max <-> (t_now - fst s < 45000000)%Z.
Proof. unfold age, toSec_diff, t_max, Qlt. cbn [Qnum Qden]. lia. Qed.

Lemma age_ge_t_max (t_now : Time) (s : TimedThrust) :
  t_max <= age t_now s <-> (45000000 <= t_now - fst s)%Z.
Proof. unfold age, toSec_diff, t_max, Qle. cbn [Qnum Qden]. lia. Qed.

Lemma age_lt_t_min (t_now : Time) (s : TimedThrust) :
  age t_now s < t_min <-> (t_now - fst s < 35000000)%Z.
Proof. unfold age, toSec_diff, t_min, Qlt. cbn [Qnum Qden]. lia. Qed.

Lemma age_ge_t_min (t_now : Time) (s : TimedThrust) :
  t_min <= age t_now s <-> (35000000 <= t_now - fst s)%Z.
Proof. unfold age, toSec_diff, t_min, Qle. cbn [Qnum Qden]. lia. Qed.

(** What one run of the loop does to a queue [q]: it pops a prefix [old]
    of pairs that are 45 ms old or older and then stops at the first pair
    that is not. *)
Lemma estimateThrustModel_loop_spec (t_now : Time) (est_a : Vector3d) (c : ControlBase)
    (q : list TimedThrust) :
  exists old rest,
    q = old ++ rest /\
    Forall (fun s => t_max <= age t_now s) old /\
    match rest with
    | [] => estimateThrustModel_loop t_now est_a c q = (false, set_timed_thrust c [])
    | s :: tl =>
        age t_now s < t_max /\
        (age t_now s < t_min ->
         estimateThrustModel_loop t_now est_a c q = (false, set_timed_thrust c (s :: tl))) /\
        (t_min <= age t_now s ->
         estimateThrustModel_loop t_now est_a c q =
         (true, rls_step (set_timed_thrust c tl) (snd s) (vz est_a)))
    end.
Proof.
  induction q as [|t_t q IH].
  - exists [], []. simpl. auto.
  - cbn [estimateThrustModel_loop].
    destruct (time_passed_gt_0_045 (t_now - fst t_t)) eqn:Eold.
    + destruct IH as (old & rest & Hq & Hold & Hrest).
      exists (t_t :: old), rest. repeat split.
      * simpl. now rewrite Hq.
      * constructor; [now apply time_passed_gt_0_045_age | exact Hold].
      * exact Hrest.
    + exists [], (t_t :: q). apply time_passed_gt_0_045_age_false in Eold.
      repeat split; auto.
      * intros Hy. apply time_passed_lt_0_035_age in Hy. now rewrite Hy.
      * intros Hy. apply time_passed_lt_0_035_age_false in Hy. now rewrite Hy.
Qed.

Lemma stamps_nondecreasing_ages (t_now : Time) (old : list TimedThrust) (s : TimedThrust)
    (tl : list TimedThrust) :
  stamps_nondecreasing (old ++ s :: tl) -> age t_now s < t_max ->
  Forall (fun s' => age t_now s' < t_max) (s :: tl).
Proof.
  intros Hs Hle. constructor; [exact Hle|].
  specialize (Hs old s tl eq_refl).
  eapply Forall_impl; [|exact Hs].
  intros s' H. simpl in H. apply Qle_lt_trans with (age t_now s); [|exact Hle].
  now apply age_antitone.
Qed.

(** The covariance after one step, when no divisor vanishes. *)
Lemma rls_step_P (c : ControlBase) (thr a : Q) :
  ~ rho2_ c == 0 -> ~ rho2_ c + thr * P_ c * thr == 0 ->
  P_ (rls_step c thr a) == P_ c / (rho2_ c + thr * P_ c * thr).
Proof.
  intros H1 H2. unfold rls_step. simpl. field. split; assumption.
Qed.

Lemma rls_step_P_bounds (c : ControlBase) (thr a : Q) :
  0 < rho2_ c -> 0 <= P_ c ->
  0 <= P_ (rls_step c thr a) /\
  (1 - rho2_ c <= thr * P_ c * thr -> P_ (rls_step c thr a) <= P_ c) /\
  (thr * P_ c * thr < 1 - rho2_ c -> 0 < P_ c -> P_ c < P_ (rls_step c thr a)).
Proof.
  intros Hrho HP.
  assert (Hsq : 0 <= thr * P_ c * thr).
  { setoid_replace (thr * P_ c * thr) with (P_ c * (thr * thr)) by ring.
    apply Qmult_le_0_compat; [exact HP|].
    destruct (Qlt_le_dec thr 0) as [Hn|Hp]; nra. }
  set (d := rho2_ c + thr * P_ c * thr) in *.
  assert (Hd : 0 < d) by (unfold d; lra).
  assert (HE : P_ (rls_step c thr a) == P_ c / d).
  { apply rls_step_P; unfold d; lra. }
  rewrite HE.
  assert (Hinv : 0 < / d) by (now apply Qinv_lt_0_compat).
  assert (Hmul : P_ c / d * d == P_ c) by (field; lra).
  repeat split.
  - unfold Qdiv. apply Qmult_le_0_compat; lra.
  - intros H. assert (1 <= d) by (unfold d; lra).
    apply Qle_shift_div_r; [exact Hd|]. nra.
  - intros H HPpos. assert (d < 1) by (unfold d; lra).
    apply Qlt_shift_div_l; [exact Hd|]. nra.
Qed.

(** A pair that is 34 ms old is kept and nothing is updated. *)
Example estimate_34ms :
  estimateThrustModel (ms 34) (mkV3 0 0 10) param0 (control0 [(ms 0, 1 # 2)])
  = (false, control0 [(ms 0, 1 # 2)]).
Proof. reflexivity. Qed.

(** At 36 ms the same pair is consumed. *)
Example estimate_36ms :
  let r := estimateThrustModel (ms 36) (mkV3 0 0 10) param0 (control0 [(ms 0, 1 # 2)]) in
  fst r = true /\ timed_thrust_ (snd r) = [].
Proof. vm_compute. split; reflexivity. Qed.

(** A pair that is 46 ms old is dropped and the next one, 40 ms old, is
    used; a third pair of the right age stays in the queue. *)
Example estimate_46ms :
  let c := control0 [(ms 0, 1 # 4); (ms 6, 1 # 2); (ms 7, 3 # 4)] in
  estimateThrustModel (ms 46) (mkV3 0 0 10) param0 c
  = (true, rls_step (set_timed_thrust c [(ms 7, 3 # 4)]) (1 # 2) 10).
Proof. reflexivity. Qed.

(** ** The two comparisons on doubles *)

Module DoubleFacts.

(** At the two thresholds the doubles decide as [time_passed_gt_0_045] and
    [time_passed_lt_0_035] say: 45 000 000 ns is above the double 0.045 and
    44 999 999 ns is not; 34 999 999 ns is below the double 0.035 and
    35 000 000 ns is not. *)
Lemma thresholds :
  Double.gt_0_045 Double.ns_45000000 = time_passed_gt_0_045 45000000 /\
  Double.gt_0_045 Double.ns_44999999 = time_passed_gt_0_045 44999999 /\
  Double.lt_0_035 Double.ns_35000000 = time_passed_lt_0_035 35000000 /\
  Double.lt_0_035 Double.ns_34999999 = time_passed_lt_0_035 34999999 /\
  Double.gt_0_045 Double.ns_45000000 = true /\
  Double.lt_0_035 Double.ns_35000000 = false.
Proof. vm_compute. repeat split. Qed.

(** And they decide alike on differences around and away from the two
    thresholds. *)
Lemma samples_agree :
  forallb (fun p => Double.agree (fst p) (snd p)) Double.samples = true.
Proof. vm_compute. reflexivity. Qed.

End DoubleFacts.

(** ** C1 *)

(** C1, counterexample.  A pair that is exactly 45 ms old is within the
    closed window from 35 ms to 45 ms, and the call drops it: it returns
    false, empties the queue and leaves gain and covariance as they
    were. *)
Lemma estimateThrustModel_45ms_dropped :
  let c := control0 [(ms 0, 1 # 2)] in
  let r := estimateThrustModel (ms 45) (mkV3 0 0 10) param0 c in
  (ms 45 - ms 0 = 45000000)%Z /\
  (t_min <= age (ms 45) (ms 0, 1 # 2) /\ age (ms 45) (ms 0, 1 # 2) <= t_max) /\
  fst r = false /\ timed_thrust_ (snd r) = [] /\
  thr2acc_ (snd r) = thr2acc_ c /\ P_ (snd r) = P_ c.
Proof.
  vm_compute. repeat split; discriminate.
Qed.

(** C1 (amended).  One call of [estimateThrustModel], with [d] the
    difference in nanoseconds between the time of the call and the time
    stamp of a pair.  The call pops from the front of the queue the pairs
    [old] with [d >= 45 000 000] (45 ms old or older) and looks at the
    first pair [s] that is younger.  With nothing left it returns false.
    When [d < 35 000 000] for [s], it returns false and [s] stays at the
    front.  When [35 000 000 <= d < 45 000 000] for [s], it returns true,
    [s] alone is removed besides [old], and gain and covariance are the
    result of one least-squares step with the thrust [thr] of [s]:
    [gain + K * (a - thr * gain)] and [(1 - K * thr) * P / rho2], with
    [gamma = 1 / (rho2 + thr * P * thr)] and [K = gamma * P * thr]; the
    pairs behind [s] stay queued whatever their age.  With an empty queue
    the call returns false and changes nothing.  When the time stamps of
    the queue do not decrease, no pair that is 45 ms old or older is left
    in the queue. *)
Theorem estimateThrustModel_window (t_now : Time) (est_a : Vector3d) (param : Parameter_t)
    (c : ControlBase) :
  let r := estimateThrustModel t_now est_a param c in
  let d (s : TimedThrust) := (t_now - fst s)%Z in
  (exists old rest,
     timed_thrust_ c = old ++ rest /\
     Forall (fun s => (45000000 <= d s)%Z) old /\
     match rest with
     | [] => r = (false, set_timed_thrust c [])
     | s :: tl =>
         (d s < 45000000)%Z /\
         ((d s < 35000000)%Z -> r = (false, set_timed_thrust c (s :: tl))) /\
         ((35000000 <= d s)%Z ->
          let thr := snd s in
          let gamma := 1 / (rho2_ c + thr * P_ c * thr) in
          let K := gamma * P_ c * thr in
          r = (true, mkControl (param_ c) (debug_msg_ c) tl
                       (thr2acc_ c + K * (vz est_a - thr * thr2acc_ c))
                       ((1 - K * thr) * P_ c / rho2_ c)
                       (rho2_ c)))
     end) /\
  (timed_thrust_ c = [] -> r = (false, c)) /\
  (stamps_nondecreasing (timed_thrust_ c) ->
   Forall (fun s => (d s < 45000000)%Z) (timed_thrust_ (snd r))).
Proof.
  intros r d. subst r. unfold estimateThrustModel.
  destruct (estimateThrustModel_loop_spec t_now est_a c (timed_thrust_ c))
    as (old & rest & Hq & Hold & Hrest).
  split; [|split].
  - exists old, rest. split; [exact Hq|]. split.
    + eapply Forall_impl; [|exact Hold]. intros s H. now apply age_ge_t_max.
    + destruct rest as [|s tl]; [exact Hrest|].
      destruct Hrest as (Hle & Hyoung & Hwin).
      split; [now apply age_lt_t_max|]. split.
      * intros H. apply Hyoung. now apply age_lt_t_min.
      * intros H. cbv zeta. rewrite Hwin by (now apply age_ge_t_min). reflexivity.
  - intros He. rewrite He. simpl. rewrite <- He. destruct c; reflexivity.
  - intros Hs. rewrite Hq in Hs. destruct rest as [|s tl].
    + rewrite Hrest. simpl. constructor.
    + destruct Hrest as (Hle & Hyoung & Hwin).
      pose proof (stamps_nondecreasing_ages t_now old s tl Hs Hle) as Hall.
      assert (Hall' : Forall (fun s' => (d s' < 45000000)%Z) (s :: tl)).
      { eapply Forall_impl; [|exact Hall]. intros s' H. now apply age_lt_t_max. }
      destruct (Qlt_le_dec (age t_now s) t_min) as [Hy|Hy].
      * rewrite (Hyoung Hy). simpl. exact Hall'.
      * rewrite (Hwin Hy). simpl. now inversion Hall'.
Qed.

(** At 45 ms after the first of three pairs: the first, exactly 45 ms old,
    is popped, the second, 40 ms old, is used for the step, and the third
    stays. *)
Lemma estimateThrustModel_window_witness :
  let c := control0 [(ms 0, 1 # 4); (ms 5, 1 # 2); (ms 6, 3 # 4)] in
  let r := estimateThrustModel (ms 45) (mkV3 0 0 10) param0 c in
  Forall (fun s => (ms 45 - fst s < 45000000)%Z) (timed_thrust_ (snd r)) /\
  fst r = true /\ timed_thrust_ (snd r) = [(ms 6, 3 # 4)] /\
  thr2acc_ (snd r) == (981 # 50) + (250000000 # 125000499) * (10 - (1 # 2) * (981 # 50)) /\
  P_ (snd r) == 500000000 # 125000499.
Proof.
  split.
  - apply (estimateThrustModel_window (ms 45) (mkV3 0 0 10) param0
             (control0 [(ms 0, 1 # 4); (ms 5, 1 # 2); (ms 6, 3 # 4)])).
    intros old s rest H.
    destruct old as [|a [|b [|d old]]]; simpl in H; inversion H; subst.
    + repeat constructor; simpl; unfold ms; lia.
    + repeat constructor; simpl; unfold ms; lia.
    + constructor.
    + destruct old; discriminate.
  - vm_compute. repeat split.
Defined.

(** ** C2 *)

(** C2. When [estimateThrustModel] returns true, it has consumed one pair
    [(t, thr)], the first of the queue that is less than 45 ms old, and
    with [a] the measured vertical acceleration the new gain and covariance
    are [gain + K * (a - thr * gain)] and [(1 - K * thr) * P / rho2], where
    [gamma = 1 / (rho2 + thr * P * thr)] and [K = gamma * P * thr] are
    computed from the gain [gain], the covariance [P] and the forgetting
    factor [rho2] before the call. *)
Theorem estimateThrustModel_rls (t_now : Time) (est_a : Vector3d) (param : Parameter_t)
    (c c' : ControlBase) :
  estimateThrustModel t_now est_a param c = (true, c') ->
  exists old t thr,
    timed_thrust_ c = old ++ (t, thr) :: timed_thrust_ c' /\
    Forall (fun s => t_max <= age t_now s) old /\
    (t_min <= age t_now (t, thr) /\ age t_now (t, thr) < t_max) /\
    let gamma := 1 / (rho2_ c + thr * P_ c * thr) in
    let K := gamma * P_ c * thr in
    thr2acc_ c' = thr2acc_ c + K * (vz est_a - thr * thr2acc_ c) /\
    P_ c' = (1 - K * thr) * P_ c / rho2_ c /\
    rho2_ c' = rho2_ c.
Proof.
  unfold estimateThrustModel. intros Hr.
  destruct (estimateThrustModel_loop_spec t_now est_a c (timed_thrust_ c))
    as (old & rest & Hq & Hold & Hrest).
  destruct rest as [|[t thr] tl].
  - rewrite Hrest in Hr. discriminate.
  - destruct Hrest as (Hle & Hyoung & Hwin).
    destruct (Qlt_le_dec (age t_now (t, thr)) t_min) as [Hy|Hy].
    + rewrite (Hyoung Hy) in Hr. discriminate.
    + rewrite (Hwin Hy) in Hr. injection Hr as Hc. subst c'.
      exists old, t, thr. simpl. repeat split; auto.
Qed.

Lemma estimateThrustModel_rls_witness :
  exists old t thr,
    [(ms 0, 1 # 4); (ms 6, 1 # 2); (ms 7, 3 # 4)] = old ++ (t, thr) :: [(ms 7, 3 # 4)] /\
    Forall (fun s => t_max <= age (ms 46) s) old /\
    (t_min <= age (ms 46) (t, thr) /\ age (ms 46) (t, thr) < t_max) /\
    let gamma := 1 / ((998 # 1000) + thr * 1000000 * thr) in
    let K := gamma * 1000000 * thr in
    thr2acc_ (rls_step (control0 [(ms 7, 3 # 4)]) (1 # 2) 10)
      = (981 # 100) / (1 # 2) + K * (10 - thr * ((981 # 100) / (1 # 2))) /\
    P_ (rls_step (control0 [(ms 7, 3 # 4)]) (1 # 2) 10) = (1 - K * thr) * 1000000 / (998 # 1000) /\
    998 # 1000 = 998 # 1000.
Proof.
  apply (estimateThrustModel_rls (ms 46) (mkV3 0 0 10) param0
           (control0 [(ms 0, 1 # 4); (ms 6, 1 # 2); (ms 7, 3 # 4)])
           (rls_step (control0 [(ms 7, 3 # 4)]) (1 # 2) 10)).
  reflexivity.
Defined.

(** ** C9 *)

(** C9. When [estimateThrustModel] returns false, the gain [thr2acc_] and
    the covariance [P_] are the ones before the call (and so are the
    parameters, the forgetting factor and the debug message). *)
Theorem estimateThrustModel_false_keeps_mapping (t_now : Time) (est_a : Vector3d)
    (param : Parameter_t) (c : ControlBase) :
  fst (estimateThrustModel t_now est_a param c) = false ->
  let c' := snd (estimateThrustModel t_now est_a param c) in
  thr2acc_ c' = thr2acc_ c /\ P_ c' = P_ c /\ rho2_ c' = rho2_ c /\
  param_ c' = param_ c /\ debug_msg_ c' = debug_msg_ c.
Proof.
  unfold estimateThrustModel.
  destruct (estimateThrustModel_loop_spec t_now est_a c (timed_thrust_ c))
    as (old & rest & Hq & Hold & Hrest).
  destruct rest as [|s tl].
  - rewrite Hrest. simpl. auto.
  - destruct Hrest as (Hle & Hyoung & Hwin).
    destruct (Qlt_le_dec (age t_now s) t_min) as [Hy|Hy].
    + rewrite (Hyoung Hy). simpl. auto.
    + rewrite (Hwin Hy). simpl. discriminate.
Qed.

Lemma estimateThrustModel_false_keeps_mapping_witness :
  let c := control0 [(ms 0, 1 # 4); (ms 20, 1 # 2)] in
  let c' := snd (estimateThrustModel (ms 50) (mkV3 0 0 10) param0 c) in
  thr2acc_ c' = thr2acc_ c /\ P_ c' = P_ c /\ rho2_ c' = rho2_ c /\
  param_ c' = param_ c /\ debug_msg_ c' = debug_msg_ c.
Proof.
  apply (estimateThrustModel_false_keeps_mapping (ms 50) (mkV3 0 0 10) param0
           (control0 [(ms 0, 1 # 4); (ms 20, 1 # 2)])).
  reflexivity.
Defined.

(** ** C8 *)

(** C8, counterexample.  With a forgetting factor below 1 a step can
    enlarge the covariance.  Right after a reset ([P_ = 10^6], [rho2_ = 0.998]) a queued thrust of 0
    that is 40 ms old is consumed: [K = 0] and the covariance becomes
    [10^6 / 0.998]. *)
Lemma covariance_can_grow :
  let c := control0 [(ms 0, 0)] in
  let r := estimateThrustModel (ms 40) (mkV3 0 0 10) param0 c in
  (0 < rho2_ c /\ rho2_ c <= 1) /\ fst r = true /\
  ~ Qabs (P_ (snd r)) <= Qabs (P_ c).
Proof.
  vm_compute. repeat split; try reflexivity; try discriminate.
  intros H. apply H. reflexivity.
Qed.

(** The same after a first step with thrust 1/2 has brought the covariance
    down to about 4: a following thrust of 1/100 enlarges it again. *)
Example covariance_grows_after_shrinking :
  let c0 := control0 [(ms 0, 1 # 2); (ms 10, 1 # 100)] in
  let r1 := estimateThrustModel (ms 40) (mkV3 0 0 10) param0 c0 in
  let r2 := estimateThrustModel (ms 50) (mkV3 0 0 10) param0 (snd r1) in
  fst r1 = true /\ fst r2 = true /\
  P_ (snd r1) < P_ c0 /\ P_ (snd r1) < P_ (snd r2).
Proof. vm_compute. repeat split; reflexivity. Qed.

(** C8 (amended).  For a forgetting factor [0 < rho2 <= 1] and a covariance
    [P >= 0], a call that returns true has consumed a thrust [thr] and
    leaves a covariance that is again non-negative; it is no greater than
    [P] (also in magnitude) when [thr * P * thr >= 1 - rho2], which always
    holds for [rho2 = 1], and it is greater than [P] when
    [thr * P * thr < 1 - rho2] and [P > 0]. *)
Theorem estimateThrustModel_covariance (t_now : Time) (est_a : Vector3d)
    (param : Parameter_t) (c c' : ControlBase) :
  0 < rho2_ c -> rho2_ c <= 1 -> 0 <= P_ c ->
  estimateThrustModel t_now est_a param c = (true, c') ->
  exists old t thr,
    timed_thrust_ c = old ++ (t, thr) :: timed_thrust_ c' /\
    0 <= P_ c' /\
    (1 - rho2_ c <= thr * P_ c * thr ->
     P_ c' <= P_ c /\ Qabs (P_ c') <= Qabs (P_ c)) /\
    (rho2_ c == 1 -> P_ c' <= P_ c /\ Qabs (P_ c') <= Qabs (P_ c)) /\
    (thr * P_ c * thr < 1 - rho2_ c -> 0 < P_ c -> P_ c < P_ c').
Proof.
  unfold estimateThrustModel. intros Hrho Hrho1 HP Hr.
  destruct (estimateThrustModel_loop_spec t_now est_a c (timed_thrust_ c))
    as (old & rest & Hq & Hold & Hrest).
  destruct rest as [|[t thr] tl].
  - rewrite Hrest in Hr. discriminate.
  - destruct Hrest as (Hle & Hyoung & Hwin).
    destruct (Qlt_le_dec (age t_now (t, thr)) t_min) as [Hy|Hy].
    + rewrite (Hyoung Hy) in Hr. discriminate.
    + rewrite (Hwin Hy) in Hr. injection Hr as Hc. subst c'.
      destruct (rls_step_P_bounds (set_timed_thrust c tl) thr (vz est_a) Hrho HP)
        as (Hpos & Hdown & Hup).
      simpl rho2_ in *. simpl P_ in Hdown, Hup.
      set (P' := P_ (rls_step (set_timed_thrust c tl) thr (vz est_a))) in *.
      assert (Habs : P' <= P_ c -> P' <= P_ c /\ Qabs P' <= Qabs (P_ c)).
      { intros H. split; [exact H|]. rewrite !Qabs_pos; assumption. }
      assert (Hsq : 0 <= thr * P_ c * thr).
      { setoid_replace (thr * P_ c * thr) with (P_ c * (thr * thr)) by ring.
        apply Qmult_le_0_compat; [exact HP|].
        destruct (Qlt_le_dec thr 0); nra. }
      exists old, t, thr. simpl timed_thrust_.
      split; [exact Hq|]. split; [exact Hpos|]. split; [|split].
      * intros H. apply Habs, Hdown, H.
      * intros H1. apply Habs, Hdown. rewrite H1. lra.
      * exact Hup.
Qed.

Lemma estimateThrustModel_covariance_witness :
  exists old t thr,
    [(ms 0, 1 # 4); (ms 6, 1 # 2); (ms 7, 3 # 4)] = old ++ (t, thr) :: [(ms 7, 3 # 4)] /\
    0 <= P_ (rls_step (control0 [(ms 7, 3 # 4)]) (1 # 2) 10) /\
    (1 - (998 # 1000) <= thr * 1000000 * thr ->
     P_ (rls_step (control0 [(ms 7, 3 # 4)]) (1 # 2) 10) <= 1000000 /\
     Qabs (P_ (rls_step (control0 [(ms 7, 3 # 4)]) (1 # 2) 10)) <= Qabs 1000000) /\
    (998 # 1000 == 1 ->
     P_ (rls_step (control0 [(ms 7, 3 # 4)]) (1 # 2) 10) <= 1000000 /\
     Qabs (P_ (rls_step (control0 [(ms 7, 3 # 4)]) (1 # 2) 10)) <= Qabs 1000000) /\
    (thr * 1000000 * thr < 1 - (998 # 1000) -> 0 < 1000000 ->
     1000000 < P_ (rls_step (control0 [(ms 7, 3 # 4)]) (1 # 2) 10)).
Proof.
  apply (estimateThrustModel_covariance (ms 46) (mkV3 0 0 10) param0
           (control0 [(ms 0, 1 # 4); (ms 6, 1 # 2); (ms 7, 3 # 4)])
           (rls_step (control0 [(ms 7, 3 # 4)]) (1 # 2) 10)).
  - reflexivity.
  - discriminate.
  - discriminate.
  - reflexivity.
Defined.

(** Without forgetting ([rho2 = 1]) the covariance never grows, over any
    sequence of calls of the estimator, successful or not. *)
Lemma estimateThrustModel_P_step (t_now : Time) (est_a : Vector3d) (param : Parameter_t)
    (c : ControlBase) :
  0 < rho2_ c -> 0 <= P_ c ->
  let c' := snd (estimateThrustModel t_now est_a param c) in
  rho2_ c' = rho2_ c /\ 0 <= P_ c' /\ (rho2_ c == 1 -> P_ c' <= P_ c).
Proof.
  unfold estimateThrustModel. intros Hrho HP.
  destruct (estimateThrustModel_loop_spec t_now est_a c (timed_thrust_ c))
    as (old & rest & Hq & Hold & Hrest).
  destruct rest as [|[t thr] tl].
  - rewrite Hrest. simpl. repeat split; auto. intros _. apply Qle_refl.
  - destruct Hrest as (Hle & Hyoung & Hwin).
    destruct (Qlt_le_dec (age t_now (t, thr)) t_min) as [Hy|Hy].
    + rewrite (Hyoung Hy). simpl. repeat split; auto. intros _. apply Qle_refl.
    + rewrite (Hwin Hy). cbn [snd].
      destruct (rls_step_P_bounds (set_timed_thrust c tl) thr (vz est_a) Hrho HP)
        as (Hpos & Hdown & _).
      simpl rho2_ in *. simpl P_ in Hdown.
      split; [reflexivity|]. split; [exact Hpos|].
      intros H1. apply Hdown. rewrite H1.
      setoid_replace (thr * P_ c * thr) with (P_ c * (thr * thr)) by ring.
      setoid_replace (1 - 1) with 0 by ring.
      apply Qmult_le_0_compat; [exact HP|].
      destruct (Qlt_le_dec thr 0); nra.
Qed.

Lemma covariance_nonincreasing_without_forgetting (l : list (Time * Vector3d * Parameter_t)) :
  forall c, rho2_ c == 1 -> 0 <= P_ c ->
  0 <= P_ (estimator_calls c l) /\ P_ (estimator_calls c l) <= P_ c.
Proof.
  induction l as [|i l IH]; intros c Hrho HP.
  - simpl. split; [exact HP|apply Qle_refl].
  - unfold estimator_calls. cbn [fold_left]. fold (estimator_calls).
    assert (Hpos : 0 < rho2_ c) by (rewrite Hrho; reflexivity).
    destruct (estimateThrustModel_P_step (fst (fst i)) (snd (fst i)) (snd i) c Hpos HP)
      as (Hr & H0 & H1).
    set (c1 := snd (estimateThrustModel (fst (fst i)) (snd (fst i)) (snd i) c)) in *.
    assert (Hrho1 : rho2_ c1 == 1) by (rewrite Hr; exact Hrho).
    destruct (IH c1 Hrho1 H0) as (Ha & Hb).
    change (fold_left _ l c1) with (estimator_calls c1 l).
    split; [exact Ha|]. apply Qle_trans with (P_ c1); [exact Hb|now apply H1].
Qed.

(** ** The queue of the control laws *)

Lemma pop_while_over_100_skipn (q : list TimedThrust) :
  pop_while_over_100 q = skipn (length q - 100) q.
Proof.
  induction q as [|s q IH]; [reflexivity|].
  cbn [pop_while_over_100].
  destruct (100 <? length (s :: q))%nat eqn:E.
  - apply Nat.ltb_lt in E. cbn [length] in *.
    replace (S (length q) - 100)%nat with (S (length q - 100)) by lia.
    rewrite IH. reflexivity.
  - apply Nat.ltb_ge in E.
    replace (length (s :: q) - 100)%nat with 0%nat by lia. reflexivity.
Qed.

Lemma pop_while_over_100_length (q : list TimedThrust) :
  (length (pop_while_over_100 q) <= 100)%nat.
Proof.
  rewrite pop_while_over_100_skipn, length_skipn. lia.
Qed.

Section Frame.
Context {M : Libm}.

Lemma calculateControl_thrust k t_now des odom imu c :
  u_thrust (snd (fst (calculateControl k t_now des odom imu c)))
  = control_thrust k c des odom.
Proof. destruct k; reflexivity. Qed.

Lemma calculateControl_state k t_now des odom imu c :
  let r := calculateControl k t_now des odom imu c in
  fst (fst r)
  = mkControl (param_ c) (snd r)
      (pop_while_over_100 (timed_thrust_ c ++ [(t_now, control_thrust k c des odom)]))
      (thr2acc_ c) (P_ c) (rho2_ c).
Proof. destruct k; reflexivity. Qed.

Lemma calculateControl_queue_length k t_now des odom imu c :
  (length (timed_thrust_ (fst (fst (calculateControl k t_now des odom imu c)))) <= 100)%nat.
Proof.
  pose proof (calculateControl_state k t_now des odom imu c) as Hs.
  cbv zeta in Hs. rewrite Hs. cbn [timed_thrust_]. apply pop_while_over_100_length.
Qed.

Lemma control_thrust_ext k c1 c2 des odom :
  param_ c1 = param_ c2 -> thr2acc_ c1 = thr2acc_ c2 ->
  control_thrust k c1 des odom = control_thrust k c2 des odom.
Proof.
  intros Hp Ht. destruct k; unfold control_thrust,
    computeDesiredCollectiveThrustSignal, desired_acceleration;
    rewrite Hp, Ht; reflexivity.
Qed.

(** After a sequence of calls the queue is what the eviction leaves of
    the old queue followed by all recorded pairs, provided the old queue
    was within the bound. *)
Lemma control_cycles_queue k (l : list Cycle) : forall c,
  (length (timed_thrust_ c) <= 100)%nat ->
  let c' := control_cycles k c l in
  param_ c' = param_ c /\ thr2acc_ c' = thr2acc_ c /\ P_ c' = P_ c /\
  rho2_ c' = rho2_ c /\
  timed_thrust_ c' = pop_while_over_100 (timed_thrust_ c ++ map (recorded k c) l).
Proof.
  induction l as [|i l IH]; intros c Hlen.
  - cbn. repeat split. rewrite app_nil_r, pop_while_over_100_skipn.
    replace (length (timed_thrust_ c) - 100)%nat with 0%nat by lia. reflexivity.
  - cbn [control_cycles fold_left].
    pose proof (calculateControl_state k (cy_now i) (cy_des i) (cy_odom i) (cy_imu i) c) as Hs.
    cbv zeta in Hs. fold (control_cycle k c i) in Hs.
    set (c1 := control_cycle k c i) in *.
    assert (Hlen1 : (length (timed_thrust_ c1) <= 100)%nat).
    { rewrite Hs. cbn [timed_thrust_]. apply pop_while_over_100_length. }
    specialize (IH c1 Hlen1). cbv zeta in IH. unfold control_cycles in IH.
    destruct IH as (Hp & Ht & HP & Hr & Hq).
    assert (Hp1 : param_ c1 = param_ c) by (rewrite Hs; reflexivity).
    assert (Ht1 : thr2acc_ c1 = thr2acc_ c) by (rewrite Hs; reflexivity).
    rewrite Hp, Ht, HP, Hr, Hq.
    repeat split; try (rewrite Hs; reflexivity).
    replace (map (recorded k c1) l) with (map (recorded k c) l).
    2:{ apply map_ext. intros j. unfold recorded.
        now rewrite (control_thrust_ext k c1 c _ _ Hp1 Ht1). }
    rewrite Hs at 1. cbn [timed_thrust_ map].
    fold (recorded k c i).
    rewrite !pop_while_over_100_skipn.
    rewrite !length_app, length_skipn, !length_app. cbn [length].
    set (q := timed_thrust_ c) in *. set (m := map (recorded k c) l).
    replace (q ++ recorded k c i :: m) with ((q ++ [recorded k c i]) ++ m)
      by (rewrite <- app_assoc; reflexivity).
    rewrite (skipn_app _ (skipn _ _) m), length_skipn, skipn_skipn.
    rewrite (skipn_app _ (q ++ [recorded k c i]) m).
    rewrite !length_app. cbn [length].
    assert (Hm : length m = length l) by (unfold m; apply length_map).
    f_equal; f_equal; lia.
Qed.

End Frame.

(** ** C10 *)

(** C10. A call of either control law leaves the gain [thr2acc_], the
    covariance [P_], the forgetting factor and the parameters as they were.
    Of the estimator's state it changes the queue alone: the new queue is
    the old one followed by the pair (time of the call, commanded thrust)
    without as many pairs at its front as it has above 100, so it holds
    at most 100 pairs, and when the old queue held fewer than 100 nothing
    is evicted.  (The debug message is rewritten to the one returned.) *)
Theorem calculateControl_frame {M : Libm} (k : Controller) (t_now : Time)
    (des : Desired_State_t) (odom : Odom_Data_t) (imu : Imu_Data_t) (c : ControlBase) :
  let r := calculateControl k t_now des odom imu c in
  let c' := fst (fst r) in
  let u := snd (fst r) in
  thr2acc_ c' = thr2acc_ c /\ P_ c' = P_ c /\ rho2_ c' = rho2_ c /\
  param_ c' = param_ c /\ debug_msg_ c' = snd r /\
  timed_thrust_ c'
  = skipn (length (timed_thrust_ c) + 1 - 100) (timed_thrust_ c ++ [(t_now, u_thrust u)]) /\
  (length (timed_thrust_ c') <= 100)%nat /\
  ((length (timed_thrust_ c) < 100)%nat ->
   timed_thrust_ c' = timed_thrust_ c ++ [(t_now, u_thrust u)]).
Proof.
  intros r c' u.
  pose proof (calculateControl_state k t_now des odom imu c) as Hs.
  pose proof (calculateControl_thrust k t_now des odom imu c) as Hu.
  cbv zeta in Hs. fold r in Hs, Hu. fold c' in Hs. fold u in Hu.
  rewrite <- Hu in Hs.
  assert (Hq : timed_thrust_ c'
               = skipn (length (timed_thrust_ c) + 1 - 100)
                   (timed_thrust_ c ++ [(t_now, u_thrust u)])).
  { rewrite Hs. cbn [timed_thrust_]. rewrite pop_while_over_100_skipn, length_app.
    reflexivity. }
  repeat split; try (rewrite Hs; reflexivity).
  - exact Hq.
  - rewrite Hs. cbn [timed_thrust_]. apply pop_while_over_100_length.
  - intros Hlt. rewrite Hq.
    replace (length (timed_thrust_ c) + 1 - 100)%nat with 0%nat by lia. reflexivity.
Qed.

Lemma calculateControl_frame_witness :
  let c := control0 [(ms 0, 1 # 4)] in
  let r := @calculateControl libm0 LinearControl (ms 10) des_hover odom_level imu_level c in
  timed_thrust_ (fst (fst r)) = [(ms 0, 1 # 4); (ms 10, u_thrust (snd (fst r)))].
Proof.
  apply (@calculateControl_frame libm0 LinearControl (ms 10) des_hover odom_level imu_level
           (control0 [(ms 0, 1 # 4)])).
  simpl. lia.
Defined.

(** ** C3 *)

Lemma estimateThrustModel_queue_shrinks (t_now : Time) (est_a : Vector3d)
    (param : Parameter_t) (c : ControlBase) :
  (length (timed_thrust_ (snd (estimateThrustModel t_now est_a param c)))
   <= length (timed_thrust_ c))%nat.
Proof.
  unfold estimateThrustModel.
  destruct (estimateThrustModel_loop_spec t_now est_a c (timed_thrust_ c))
    as (old & rest & Hq & Hold & Hrest).
  rewrite Hq at 2. rewrite length_app.
  destruct rest as [|s tl].
  - rewrite Hrest. simpl. lia.
  - destruct Hrest as (Hle & Hyoung & Hwin).
    destruct (Qlt_le_dec (age t_now s) t_min) as [Hy|Hy].
    + rewrite (Hyoung Hy). simpl. lia.
    + rewrite (Hwin Hy). simpl. lia.
Qed.

(** C3. After a call of either control law the queue holds at most 100
    pairs, whatever it held before.  150 calls on a controller with an
    empty queue leave exactly 100 pairs: the ones recorded by the last 100
    calls, in order.  And the bound is kept by every sequence of calls of
    the control laws, the estimator and the reset. *)
Theorem timed_thrust_bound {M : Libm} :
  (forall k t_now des odom imu c,
     (length (timed_thrust_ (fst (fst (calculateControl k t_now des odom imu c)))) <= 100)%nat) /\
  (forall k c l,
     timed_thrust_ c = [] -> length l = 150%nat ->
     timed_thrust_ (control_cycles k c l) = skipn 50 (map (recorded k c) l) /\
     length (timed_thrust_ (control_cycles k c l)) = 100%nat) /\
  (forall ops c,
     (length (timed_thrust_ c) <= 100)%nat ->
     (length (timed_thrust_ (fold_left call ops c)) <= 100)%nat).
Proof.
  split; [|split].
  - intros. apply calculateControl_queue_length.
  - intros k c l Hq Hl.
    assert (Hlen : (length (timed_thrust_ c) <= 100)%nat) by (rewrite Hq; simpl; lia).
    destruct (control_cycles_queue k l c Hlen) as (_ & _ & _ & _ & H).
    rewrite H, Hq. cbn [app]. rewrite pop_while_over_100_skipn, length_map, Hl.
    split; [reflexivity|].
    rewrite length_skipn, length_map, Hl. reflexivity.
  - induction ops as [|op ops IH]; intros c Hc; [exact Hc|].
    cbn [fold_left]. apply IH. destruct op as [k i| t_now est_a param |]; cbn [call].
    + apply calculateControl_queue_length.
    + etransitivity; [apply estimateThrustModel_queue_shrinks|exact Hc].
    + exact Hc.
Qed.

Lemma timed_thrust_bound_witness :
  let l := map cycle_hover (seq 0 150) in
  timed_thrust_ (@control_cycles libm0 GeometricControl (control0 []) l)
  = skipn 50 (map (recorded GeometricControl (control0 [])) l) /\
  length (timed_thrust_ (@control_cycles libm0 GeometricControl (control0 []) l)) = 100%nat.
Proof.
  apply (@timed_thrust_bound libm0); reflexivity.
Defined.

(** The first pair left is the one of cycle 50, at 500 ms, with the hover
    thrust. *)
Example timed_thrust_150_first :
  match hd_error (timed_thrust_ (@control_cycles libm0 LinearControl (control0 [])
                                   (map cycle_hover (seq 0 150)))) with
  | Some (t, thr) => t = ms 500 /\ thr == 1 # 2
  | None => False
  end.
Proof. vm_compute. split; reflexivity. Qed.

(** ** C4 *)

Lemma frame_correction_cancels (a b q : Quaterniond) :
  quat_eq a b -> 0 < qsquaredNorm b ->
  quat_eq (qmul (qmul a (inverse b)) q) q.
Proof.
  intros (Hw & Hx & Hy & Hz) Hn.
  assert (Hnz : ~ qsquaredNorm b == 0) by lra.
  unfold inverse. apply Qlt_bool_true in Hn. rewrite Hn.
  unfold quat_eq, qmul, conjugate. cbn [qw qx qy qz].
  rewrite Hw, Hx, Hy, Hz.
  unfold qsquaredNorm in *.
  repeat split; field; exact Hnz.
Qed.

(** C4. When the orientation of the IMU equals the one of the odometry and
    is a unit quaternion, the attitude [u.q] that either control law
    outputs equals the attitude [q] that the law computed before the frame
    correction [imu.q * odom.q.inverse() * q]. *)
Theorem frame_correction_identity {M : Libm} (k : Controller) (t_now : Time)
    (des : Desired_State_t) (odom : Odom_Data_t) (imu : Imu_Data_t) (c : ControlBase) :
  quat_eq (imu_q imu) (odom_q odom) ->
  qsquaredNorm (odom_q odom) == 1 ->
  quat_eq (u_q (snd (fst (calculateControl k t_now des odom imu c))))
          (control_q k c des odom).
Proof.
  intros Heq Hunit.
  assert (Hpos : 0 < qsquaredNorm (odom_q odom)) by lra.
  destruct k; cbn [calculateControl control_q];
    unfold LinearControl_calculateControl, GeometricControl_calculateControl;
    cbn [fst snd u_q];
    apply frame_correction_cancels; assumption.
Qed.

Lemma frame_correction_identity_witness :
  quat_eq (u_q (snd (fst (@calculateControl libm0 GeometricControl (ms 10) des_hover
                            odom_rolled imu_rolled (control0 [])))))
          (@control_q libm0 GeometricControl (control0 []) des_hover odom_rolled).
Proof.
  apply (@frame_correction_identity libm0 GeometricControl (ms 10) des_hover odom_rolled
           imu_rolled (control0 [])).
  - repeat split; reflexivity.
  - reflexivity.
Defined.

(** ** C5 *)

Lemma desired_acceleration_hover (c : ControlBase) (des : Desired_State_t) (odom : Odom_Data_t) :
  veq (des_v des) (odom_v odom) -> veq (des_p des) (odom_p odom) ->
  veq (des_a des) zero3 ->
  veq (desired_acceleration c des odom) (mkV3 0 0 (gra (param_ c))).
Proof.
  intros (Hv0 & Hv1 & Hv2) (Hp0 & Hp1 & Hp2) (Ha0 & Ha1 & Ha2).
  unfold veq, desired_acceleration, vadd, vsub, asDiagonal_mul, zero3 in *.
  cbn [vx vy vz] in *.
  rewrite Hv0, Hv1, Hv2, Hp0, Hp1, Hp2, Ha0, Ha1, Ha2.
  repeat split; ring.
Qed.

(** C5, counterexample.  In hover conditions the geometric law commands less than the hover
    thrust when the vehicle is not level: with the odometry rolled by
    [q_rolled] the third column of its rotation matrix has the vertical
    component 7/25 and the thrust is 7/25 of the hover percentage. *)
Lemma geometric_hover_tilted :
  let c := control0 [] in
  let r := @calculateControl libm0 GeometricControl (ms 10) des_hover odom_rolled imu_rolled c in
  veq (des_v des_hover) (odom_v odom_rolled) /\
  veq (des_p des_hover) (odom_p odom_rolled) /\
  veq (des_a des_hover) zero3 /\
  thr2acc_ c == gra (param_ c) / hover_percentage (thr_map (param_ c)) /\
  qsquaredNorm (odom_q odom_rolled) == 1 /\
  u_thrust (snd (fst r)) == 7 # 50 /\
  ~ u_thrust (snd (fst r)) == hover_percentage (thr_map (param_ c)).
Proof.
  vm_compute. repeat split; try reflexivity; discriminate.
Qed.

(** C5 (amended).  With the desired velocity and position equal to the
    measured ones, a zero desired acceleration, gravity and hover
    percentage not zero and the gain equal to [gra / hover_percentage]:
    the linear law commands the hover percentage; the geometric law
    commands the hover percentage times [1 - 2 (qx^2 + qy^2)], the vertical
    component of the body z axis of [odom.q], which is the hover percentage
    when [odom.q] has no x and y component (a level vehicle). *)
Theorem hover_thrust {M : Libm} (t_now : Time) (des : Desired_State_t) (odom : Odom_Data_t)
    (imu : Imu_Data_t) (c : ControlBase) :
  veq (des_v des) (odom_v odom) -> veq (des_p des) (odom_p odom) ->
  veq (des_a des) zero3 ->
  ~ gra (param_ c) == 0 -> ~ hover_percentage (thr_map (param_ c)) == 0 ->
  thr2acc_ c == gra (param_ c) / hover_percentage (thr_map (param_ c)) ->
  let hover := hover_percentage (thr_map (param_ c)) in
  let thrust k := u_thrust (snd (fst (calculateControl k t_now des odom imu c))) in
  let q := odom_q odom in
  thrust LinearControl == hover /\
  thrust GeometricControl == hover * (1 - 2 * (qx q * qx q + qy q * qy q)) /\
  (qx q == 0 -> qy q == 0 -> thrust GeometricControl == hover).
Proof.
  intros Hv Hp Ha Hg Hh Hgain hover thrust q.
  destruct (desired_acceleration_hover c des odom Hv Hp Ha) as (Hx & Hy & Hz).
  cbn [vx vy vz] in Hx, Hy, Hz.
  assert (HL : thrust LinearControl == hover).
  { unfold thrust. rewrite calculateControl_thrust.
    unfold control_thrust, computeDesiredCollectiveThrustSignal.
    rewrite Hz, Hgain. unfold hover. field. split; assumption. }
  assert (HG : thrust GeometricControl == hover * (1 - 2 * (qx q * qx q + qy q * qy q))).
  { unfold thrust. rewrite calculateControl_thrust.
    unfold control_thrust, dot, toRotationMatrix. cbn [col2 vx vy vz].
    rewrite Hx, Hy, Hz, Hgain. unfold hover, q. field. split; assumption. }
  split; [exact HL|]. split; [exact HG|].
  intros H0 H1. rewrite HG, H0, H1. ring.
Qed.

Lemma hover_thrust_witness :
  let thrust k := u_thrust (snd (fst (@calculateControl libm0 k (ms 10) des_hover odom_rolled
                                        imu_rolled (control0 [])))) in
  thrust LinearControl == 1 # 2 /\
  thrust GeometricControl == (1 # 2) * (1 - 2 * ((3 # 5) * (3 # 5) + 0 * 0)) /\
  ((3 # 5) == 0 -> 0 == 0 -> thrust GeometricControl == 1 # 2).
Proof.
  apply (@hover_thrust libm0 (ms 10) des_hover odom_rolled imu_rolled (control0 []));
    try (repeat split; reflexivity); discriminate.
Defined.

(** ** C6 *)

(** C6, counterexample.  Neither control law looks at the sign of the gain.  With the gain
    [-19.62] and a hovering vehicle both laws divide [9.81] by it and
    output the thrust [-1/2]. *)
Lemma negative_gain_negative_thrust :
  let c := set_mapping (control0 []) (- (1962 # 100)) 1000000 in
  let thrust k := u_thrust (snd (fst (@calculateControl libm0 k (ms 10) des_hover odom_level
                                        imu_level c))) in
  thr2acc_ c < 0 /\
  thrust LinearControl == - (1 # 2) /\ thrust LinearControl < 0 /\
  thrust GeometricControl == - (1 # 2) /\ thrust GeometricControl < 0.
Proof.
  vm_compute. repeat split; reflexivity.
Qed.

(** Such a gain comes out of the estimator itself: after a reset, a
    recorded hover thrust and a measured vertical acceleration of [-5]
    40 ms later make the gain negative, and so the next thrust. *)
Example negative_gain_reached :
  let c1 := @control_cycle libm0 LinearControl (control0 []) (cycle_hover 0) in
  let r := estimateThrustModel (ms 40) (mkV3 0 0 (-5)) param0 c1 in
  let c2 := snd r in
  let u := snd (fst (@calculateControl libm0 LinearControl (ms 50) des_hover odom_level
                       imu_level c2)) in
  fst r = true /\ thr2acc_ c2 < 0 /\ u_thrust u < 0.
Proof.
  vm_compute. repeat split; reflexivity.
Qed.

(** C6 (amended).  The control laws do not check the gain and have no
    error result: for every gain that is not zero, positive or negative,
    the commanded thrust is the quotient of the numerator (the vertical
    desired acceleration in the linear law, its projection on the body z
    axis in the geometric law) by the gain.  So a negative gain with a
    positive numerator gives a negative thrust, and the thrust is known to
    be non-negative only for a positive gain and a non-negative
    numerator. *)
Theorem thrust_is_quotient {M : Libm} (k : Controller) (t_now : Time)
    (des : Desired_State_t) (odom : Odom_Data_t) (imu : Imu_Data_t) (c : ControlBase) :
  ~ thr2acc_ c == 0 ->
  let thrust := u_thrust (snd (fst (calculateControl k t_now des odom imu c))) in
  let num := thrust_numerator k c des odom in
  thrust * thr2acc_ c == num /\
  (thr2acc_ c < 0 -> 0 < num -> thrust < 0) /\
  (0 < thr2acc_ c -> 0 <= num -> 0 <= thrust).
Proof.
  intros Hnz thrust num.
  assert (Hq : thrust * thr2acc_ c == num).
  { unfold thrust, num. rewrite calculateControl_thrust.
    destruct k; unfold control_thrust, thrust_numerator,
      computeDesiredCollectiveThrustSignal; field; exact Hnz. }
  split; [exact Hq|]. split.
  - intros Hg Hn. destruct (Qlt_le_dec thrust 0) as [H|H]; [exact H|].
    exfalso. nra.
  - intros Hg Hn. destruct (Qlt_le_dec thrust 0) as [H|H]; [|exact H].
    exfalso. nra.
Qed.

Lemma thrust_is_quotient_witness :
  let c := set_mapping (control0 []) (- (1962 # 100)) 1000000 in
  let thrust := u_thrust (snd (fst (@calculateControl libm0 GeometricControl (ms 10) des_hover
                                      odom_rolled imu_rolled c))) in
  let num := thrust_numerator GeometricControl c des_hover odom_rolled in
  thrust * thr2acc_ c == num /\
  (thr2acc_ c < 0 -> 0 < num -> thrust < 0) /\
  (0 < thr2acc_ c -> 0 <= num -> 0 <= thrust).
Proof.
  apply (@thrust_is_quotient libm0 GeometricControl (ms 10) des_hover odom_rolled imu_rolled
           (set_mapping (control0 []) (- (1962 # 100)) 1000000)).
  discriminate.
Defined.

(** ** C7 *)

Lemma normalized_zero {M : Libm} (n : Vector3d) : veq n zero3 -> normalized n = n.
Proof.
  intros (Hx & Hy & Hz). unfold normalized, zero3 in *. cbn [vx vy vz] in *.
  assert (Hn : squaredNorm n <= 0).
  { unfold squaredNorm, dot. rewrite Hx, Hy, Hz. lra. }
  apply Qlt_bool_false in Hn. now rewrite Hn.
Qed.

Lemma cross_zero_l (a b : Vector3d) : veq a zero3 -> veq (cross a b) zero3.
Proof.
  intros (Hx & Hy & Hz). unfold veq, cross, zero3 in *. cbn [vx vy vz] in *.
  rewrite Hx, Hy, Hz. repeat split; ring.
Qed.

(** C7, counterexample.  With a zero desired acceleration the geometric law
    reports nothing:
    [b3c] and [b2c] are the zero vector, the desired rotation matrix is
    the zero matrix, and the attitude that is returned is the quaternion
    [(w, x, y, z) = (0, 1/2, 0, 0)], which is not a rotation. *)
Lemma degenerate_geometry_not_signaled :
  let c := control0 [] in
  let r := @calculateControl libm0 GeometricControl (ms 10) des_free_fall odom_level
             imu_level c in
  veq (desired_acceleration c des_free_fall odom_level) zero3 /\
  meq (@GeometricControl_R_des libm0 c des_free_fall odom_level) zero_matrix /\
  quat_eq (u_q (snd (fst r))) (mkQuat 0 (1 # 2) 0 0) /\
  quat_eq (mkQuat (des_q_w (snd r)) (des_q_x (snd r)) (des_q_y (snd r)) (des_q_z (snd r)))
          (mkQuat 0 (1 # 2) 0 0) /\
  ~ qsquaredNorm (u_q (snd (fst r))) == 1.
Proof.
  vm_compute. repeat split; try reflexivity; discriminate.
Qed.

(** The same with a desired acceleration along the yaw reference: [b2c]
    is the zero vector and the attitude returned is not a rotation. *)
Example degenerate_geometry_parallel :
  let c := control0 [] in
  let r := @calculateControl libm0 GeometricControl (ms 10) des_along_yaw odom_level
             imu_level c in
  veq (desired_acceleration c des_along_yaw odom_level) (@a_yaw libm0 des_along_yaw) /\
  veq (@GeometricControl_b2c libm0 c des_along_yaw odom_level) zero3 /\
  ~ qsquaredNorm (u_q (snd (fst r))) == 1.
Proof.
  vm_compute. repeat split; try reflexivity; discriminate.
Qed.

(** C7 (amended).  [GeometricControl::calculateControl] has no check of
    its own on the geometry and no error result: the attitude it returns
    is always [imu.q * odom.q.inverse() * Quaterniond(R_des)].  The only
    guard is the one inside [normalized()], which returns a zero vector as
    it is.  So for a desired acceleration equal to zero, [b3c], [b2c] and
    the whole matrix [R_des] are zero; and when [b3c x a_yaw] is zero
    (desired acceleration parallel to the yaw reference), [b2c] and the
    first two columns of [R_des] are zero. *)
Theorem degenerate_geometry_unguarded {M : Libm} (t_now : Time) (des : Desired_State_t)
    (odom : Odom_Data_t) (imu : Imu_Data_t) (c : ControlBase) :
  let R_des := GeometricControl_R_des c des odom in
  let b3c := GeometricControl_b3c c des odom in
  let b2c := GeometricControl_b2c c des odom in
  u_q (snd (fst (calculateControl GeometricControl t_now des odom imu c)))
  = qmul (qmul (imu_q imu) (inverse (odom_q odom))) (Quaterniond_of_matrix R_des) /\
  (veq (desired_acceleration c des odom) zero3 ->
   veq b3c zero3 /\ veq b2c zero3 /\ meq R_des zero_matrix) /\
  (veq (cross b3c (a_yaw des)) zero3 ->
   veq b2c zero3 /\ veq (col0 R_des) zero3 /\ veq (col1 R_des) zero3 /\ col2 R_des = b3c).
Proof.
  intros R_des b3c b2c. split; [reflexivity|]. split.
  - intros H0.
    assert (H3 : veq b3c zero3).
    { unfold b3c, GeometricControl_b3c. rewrite normalized_zero; assumption. }
    assert (H2 : veq b2c zero3).
    { unfold b2c, GeometricControl_b2c. fold b3c.
      pose proof (cross_zero_l b3c (a_yaw des) H3) as Hc.
      rewrite normalized_zero; assumption. }
    split; [exact H3|]. split; [exact H2|].
    unfold meq, R_des, GeometricControl_R_des. cbn [col0 col1 col2].
    fold b3c b2c. split; [|split; assumption].
    now apply cross_zero_l.
  - intros Hc.
    assert (H2 : veq b2c zero3).
    { unfold b2c, GeometricControl_b2c. fold b3c. rewrite normalized_zero; assumption. }
    split; [exact H2|].
    unfold R_des, GeometricControl_R_des. cbn [col0 col1 col2]. fold b3c b2c.
    split; [now apply cross_zero_l|]. split; [exact H2|reflexivity].
Qed.

Lemma degenerate_geometry_unguarded_witness :
  veq (@GeometricControl_b3c libm0 (control0 []) des_free_fall odom_level) zero3 /\
  veq (@GeometricControl_b2c libm0 (control0 []) des_free_fall odom_level) zero3 /\
  meq (@GeometricControl_R_des libm0 (control0 []) des_free_fall odom_level) zero_matrix.
Proof.
  apply (@degenerate_geometry_unguarded libm0 (ms 10) des_free_fall odom_level imu_level
           (control0 [])).
  repeat split; reflexivity.
Defined.

(** * Further properties of the estimator *)

(** A call that returns true, taken apart. *)
Lemma estimateThrustModel_true_inv (t_now : Time) (est_a : Vector3d) (param : Parameter_t)
    (c c' : ControlBase) :
  estimateThrustModel t_now est_a param c = (true, c') ->
  exists old t thr,
    timed_thrust_ c = old ++ (t, thr) :: timed_thrust_ c' /\
    Forall (fun s => t_max <= age t_now s) old /\
    (t_min <= age t_now (t, thr) /\ age t_now (t, thr) < t_max) /\
    c' = rls_step (set_timed_thrust c (timed_thrust_ c')) thr (vz est_a).
Proof.
  unfold estimateThrustModel. intros Hr.
  destruct (estimateThrustModel_loop_spec t_now est_a c (timed_thrust_ c))
    as (old & rest & Hq & Hold & Hrest).
  destruct rest as [|[t thr] tl].
  - rewrite Hrest in Hr. discriminate.
  - destruct Hrest as (Hle & Hyoung & Hwin).
    destruct (Qlt_le_dec (age t_now (t, thr)) t_min) as [Hy|Hy].
    + rewrite (Hyoung Hy) in Hr. discriminate.
    + rewrite (Hwin Hy) in Hr. injection Hr as Hc. subst c'.
      exists old, t, thr. simpl. repeat split; auto.
Qed.

Lemma square_nonneg (x : Q) : 0 <= x * x.
Proof. destruct (Qlt_le_dec x 0); nra. Qed.

Lemma rls_denominator_pos (c : ControlBase) (thr : Q) :
  0 < rho2_ c -> 0 <= P_ c -> 0 < rho2_ c + thr * P_ c * thr.
Proof.
  intros Hrho HP.
  assert (0 <= thr * P_ c * thr).
  { setoid_replace (thr * P_ c * thr) with (P_ c * (thr * thr)) by ring.
    apply Qmult_le_0_compat; [exact HP|apply square_nonneg]. }
  lra.
Qed.

(** The residual of the model after a step is the residual before it
    times [rho2 / (rho2 + thr * P * thr)]. *)
Lemma rls_step_residual (c : ControlBase) (thr a : Q) :
  0 < rho2_ c -> 0 <= P_ c ->
  a - thr * thr2acc_ (rls_step c thr a)
  == (a - thr * thr2acc_ c) * (rho2_ c / (rho2_ c + thr * P_ c * thr)).
Proof.
  intros Hrho HP. pose proof (rls_denominator_pos c thr Hrho HP) as Hd.
  unfold rls_step. simpl. field. lra.
Qed.

(** X1. A successful update never enlarges the error of the model on the
    pair it consumed: with [0 < rho2] and [P >= 0], the residual
    [a - thr * gain] after the call is the one before it times
    [rho2 / (rho2 + thr * P * thr)], a factor in (0, 1]. *)
Theorem estimateThrustModel_residual (t_now : Time) (est_a : Vector3d) (param : Parameter_t)
    (c c' : ControlBase) :
  0 < rho2_ c -> 0 <= P_ c ->
  estimateThrustModel t_now est_a param c = (true, c') ->
  exists old t thr,
    timed_thrust_ c = old ++ (t, thr) :: timed_thrust_ c' /\
    let f := rho2_ c / (rho2_ c + thr * P_ c * thr) in
    0 < f /\ f <= 1 /\
    vz est_a - thr * thr2acc_ c' == (vz est_a - thr * thr2acc_ c) * f /\
    Qabs (vz est_a - thr * thr2acc_ c') <= Qabs (vz est_a - thr * thr2acc_ c).
Proof.
  intros Hrho HP Hr.
  destruct (estimateThrustModel_true_inv _ _ _ _ _ Hr) as (old & t & thr & Hq & _ & _ & Hc).
  exists old, t, thr. split; [exact Hq|]. cbv zeta.
  set (c1 := set_timed_thrust c (timed_thrust_ c')) in *.
  assert (Hrho1 : 0 < rho2_ c1) by exact Hrho.
  assert (HP1 : 0 <= P_ c1) by exact HP.
  pose proof (rls_denominator_pos c1 thr Hrho1 HP1) as Hd.
  pose proof (rls_step_residual c1 thr (vz est_a) Hrho1 HP1) as Hres.
  rewrite <- Hc in Hres. change (rho2_ c1) with (rho2_ c) in *.
  change (P_ c1) with (P_ c) in *. change (thr2acc_ c1) with (thr2acc_ c) in *.
  set (d := rho2_ c + thr * P_ c * thr) in *.
  assert (Hf0 : 0 < rho2_ c / d).
  { unfold Qdiv. apply Qmult_lt_0_compat; [exact Hrho|now apply Qinv_lt_0_compat]. }
  assert (Hf1 : rho2_ c / d <= 1).
  { apply Qle_shift_div_r; [exact Hd|].
    assert (0 <= thr * P_ c * thr).
    { setoid_replace (thr * P_ c * thr) with (P_ c * (thr * thr)) by ring.
      apply Qmult_le_0_compat; [exact HP|apply square_nonneg]. }
    unfold d. lra. }
  repeat split; try assumption.
  rewrite Hres, Qabs_Qmult.
  rewrite (Qabs_pos (rho2_ c / d)) by lra.
  pose proof (Qabs_nonneg (vz est_a - thr * thr2acc_ c)). nra.
Qed.

Lemma estimateThrustModel_residual_witness :
  let c := control0 [(ms 0, 1 # 2)] in
  let c' := rls_step (control0 []) (1 # 2) 10 in
  exists old t thr,
    timed_thrust_ c = old ++ (t, thr) :: timed_thrust_ c' /\
    let f := rho2_ c / (rho2_ c + thr * P_ c * thr) in
    0 < f /\ f <= 1 /\
    10 - thr * thr2acc_ c' == (10 - thr * thr2acc_ c) * f /\
    Qabs (10 - thr * thr2acc_ c') <= Qabs (10 - thr * thr2acc_ c).
Proof.
  apply (estimateThrustModel_residual (ms 40) (mkV3 0 0 10) param0
           (control0 [(ms 0, 1 # 2)]) (rls_step (control0 []) (1 # 2) 10)).
  - reflexivity.
  - discriminate.
  - reflexivity.
Defined.

(** X2. The new gain is a weighted mean of the old gain and of the gain
    [a / thr] that the consumed pair alone implies: for [0 < rho2],
    [P >= 0] and a thrust [thr] that is not zero it lies between the
    two. *)
Theorem estimateThrustModel_gain_between (t_now : Time) (est_a : Vector3d)
    (param : Parameter_t) (c c' : ControlBase) :
  0 < rho2_ c -> 0 <= P_ c ->
  estimateThrustModel t_now est_a param c = (true, c') ->
  exists old t thr,
    timed_thrust_ c = old ++ (t, thr) :: timed_thrust_ c' /\
    (~ thr == 0 ->
     let m := vz est_a / thr in
     let w := thr * P_ c * thr / (rho2_ c + thr * P_ c * thr) in
     0 <= w /\ w < 1 /\
     thr2acc_ c' == (1 - w) * thr2acc_ c + w * m /\
     (thr2acc_ c <= m -> thr2acc_ c <= thr2acc_ c' /\ thr2acc_ c' <= m) /\
     (m <= thr2acc_ c -> m <= thr2acc_ c' /\ thr2acc_ c' <= thr2acc_ c)).
Proof.
  intros Hrho HP Hr.
  destruct (estimateThrustModel_true_inv _ _ _ _ _ Hr) as (old & t & thr & Hq & _ & _ & Hc).
  exists old, t, thr. split; [exact Hq|]. intros Hthr. cbv zeta.
  set (c1 := set_timed_thrust c (timed_thrust_ c')) in *.
  assert (Hd : 0 < rho2_ c + thr * P_ c * thr) by exact (rls_denominator_pos c1 thr Hrho HP).
  assert (Hsq : 0 <= thr * P_ c * thr).
  { setoid_replace (thr * P_ c * thr) with (P_ c * (thr * thr)) by ring.
    apply Qmult_le_0_compat; [exact HP|apply square_nonneg]. }
  set (d := rho2_ c + thr * P_ c * thr) in *.
  set (w := thr * P_ c * thr / d).
  assert (Hw0 : 0 <= w).
  { unfold w, Qdiv. apply Qmult_le_0_compat; [exact Hsq|].
    apply Qlt_le_weak. now apply Qinv_lt_0_compat. }
  assert (Hw1 : w < 1).
  { unfold w. apply Qlt_shift_div_r; [exact Hd|]. unfold d. lra. }
  assert (Hg : thr2acc_ c' == (1 - w) * thr2acc_ c + w * (vz est_a / thr)).
  { rewrite Hc. unfold rls_step, w, d. simpl. field. split; [exact Hthr|].
    fold d. lra. }
  split; [exact Hw0|]. split; [exact Hw1|]. split; [exact Hg|].
  split; intros Hm; rewrite Hg; split; nra.
Qed.

Lemma estimateThrustModel_gain_between_witness :
  let c := control0 [(ms 0, 1 # 2)] in
  let c' := rls_step (control0 []) (1 # 2) 10 in
  exists old t thr,
    timed_thrust_ c = old ++ (t, thr) :: timed_thrust_ c' /\
    (~ thr == 0 ->
     let m := 10 / thr in
     let w := thr * P_ c * thr / (rho2_ c + thr * P_ c * thr) in
     0 <= w /\ w < 1 /\
     thr2acc_ c' == (1 - w) * thr2acc_ c + w * m /\
     (thr2acc_ c <= m -> thr2acc_ c <= thr2acc_ c' /\ thr2acc_ c' <= m) /\
     (m <= thr2acc_ c -> m <= thr2acc_ c' /\ thr2acc_ c' <= thr2acc_ c)).
Proof.
  apply (estimateThrustModel_gain_between (ms 40) (mkV3 0 0 10) param0
           (control0 [(ms 0, 1 # 2)]) (rls_step (control0 []) (1 # 2) 10)).
  - reflexivity.
  - discriminate.
  - reflexivity.
Defined.

(** X3. Two special steps.  A consumed thrust of zero carries no
    information: the gain stays and the covariance is divided by [rho2].
    And a covariance with [thr * P * thr = 1 - rho2] is a fixed point of
    the step. *)
Theorem estimateThrustModel_special_steps (t_now : Time) (est_a : Vector3d)
    (param : Parameter_t) (c c' : ControlBase) :
  0 < rho2_ c ->
  estimateThrustModel t_now est_a param c = (true, c') ->
  exists old t thr,
    timed_thrust_ c = old ++ (t, thr) :: timed_thrust_ c' /\
    (thr == 0 -> thr2acc_ c' == thr2acc_ c /\ P_ c' == P_ c / rho2_ c) /\
    (thr * P_ c * thr == 1 - rho2_ c -> P_ c' == P_ c).
Proof.
  intros Hrho Hr.
  destruct (estimateThrustModel_true_inv _ _ _ _ _ Hr) as (old & t & thr & Hq & _ & _ & Hc).
  exists old, t, thr. split; [exact Hq|].
  assert (Hnz : ~ rho2_ c == 0) by lra.
  split.
  - intros H0. rewrite Hc. unfold rls_step. simpl. rewrite H0. split; field; lra.
  - intros H1. rewrite Hc.
    set (c1 := set_timed_thrust c (timed_thrust_ c')).
    assert (Hd : rho2_ c1 + thr * P_ c1 * thr == 1).
    { change (rho2_ c + thr * P_ c * thr == 1). rewrite H1. ring. }
    rewrite (rls_step_P c1 thr (vz est_a)).
    + rewrite Hd. change (P_ c1) with (P_ c). field.
    + exact Hnz.
    + rewrite Hd. discriminate.
Qed.

Lemma estimateThrustModel_special_steps_witness :
  let c := control0 [(ms 0, 0)] in
  let c' := rls_step (control0 []) 0 10 in
  exists old t thr,
    timed_thrust_ c = old ++ (t, thr) :: timed_thrust_ c' /\
    (thr == 0 -> thr2acc_ c' == thr2acc_ c /\ P_ c' == P_ c / rho2_ c) /\
    (thr * P_ c * thr == 1 - rho2_ c -> P_ c' == P_ c).
Proof.
  apply (estimateThrustModel_special_steps (ms 40) (mkV3 0 0 10) param0
           (control0 [(ms 0, 0)]) (rls_step (control0 []) 0 10)); reflexivity.
Defined.

(** X4. A queue in which every pair is older than 45 ms is emptied by one
    call, which returns false and leaves the mapping as it was. *)
Theorem estimateThrustModel_stale_queue (t_now : Time) (est_a : Vector3d)
    (param : Parameter_t) (c : ControlBase) :
  Forall (fun s => t_max < age t_now s) (timed_thrust_ c) ->
  estimateThrustModel t_now est_a param c = (false, set_timed_thrust c []).
Proof.
  unfold estimateThrustModel. generalize (timed_thrust_ c) as q.
  induction q as [|s q IH]; intros Hall; [reflexivity|].
  inversion Hall as [|s' q' Hs Hq]; subst.
  cbn [estimateThrustModel_loop].
  assert (Hs' : time_passed_gt_0_045 (t_now - fst s) = true).
  { apply time_passed_gt_0_045_age. apply Qlt_le_weak. exact Hs. }
  rewrite Hs'. apply IH, Hq.
Qed.

Lemma estimateThrustModel_stale_queue_witness :
  estimateThrustModel (ms 100) (mkV3 0 0 10) param0 (control0 [(ms 0, 1 # 4); (ms 20, 1 # 2)])
  = (false, set_timed_thrust (control0 [(ms 0, 1 # 4); (ms 20, 1 # 2)]) []).
Proof.
  apply (estimateThrustModel_stale_queue (ms 100) (mkV3 0 0 10) param0
           (control0 [(ms 0, 1 # 4); (ms 20, 1 # 2)])).
  repeat constructor.
Defined.

Lemma set_timed_thrust_twice (c : ControlBase) (q q' : list TimedThrust) :
  set_timed_thrust (set_timed_thrust c q) q' = set_timed_thrust c q'.
Proof. reflexivity. Qed.

(** X5. The estimator only ever removes pairs from the front: the queue
    after a call is a suffix of the queue before it, strictly shorter when
    the call returns true.  And a call that returned false is stable: a
    second call at the same time, with any measurement, returns false
    again and changes nothing. *)
Theorem estimateThrustModel_front_only (t_now : Time) (est_a est_a' : Vector3d)
    (param param' : Parameter_t) (c : ControlBase) :
  let r := estimateThrustModel t_now est_a param c in
  (exists old, timed_thrust_ c = old ++ timed_thrust_ (snd r) /\
               (fst r = true -> old <> [])) /\
  (fst r = false -> estimateThrustModel t_now est_a' param' (snd r) = (false, snd r)).
Proof.
  intros r. subst r. unfold estimateThrustModel.
  destruct (estimateThrustModel_loop_spec t_now est_a c (timed_thrust_ c))
    as (old & rest & Hq & Hold & Hrest).
  destruct rest as [|s tl].
  - rewrite Hrest. cbn [fst snd]. split.
    + exists old. split; [now rewrite Hq|discriminate].
    + intros _. reflexivity.
  - destruct Hrest as (Hle & Hyoung & Hwin).
    destruct (Qlt_le_dec (age t_now s) t_min) as [Hy|Hy].
    + rewrite (Hyoung Hy). cbn [fst snd]. split.
      * exists old. split; [exact Hq|discriminate].
      * intros _. cbn [set_timed_thrust timed_thrust_ estimateThrustModel_loop].
        apply time_passed_gt_0_045_age_false in Hle.
        apply time_passed_lt_0_035_age in Hy. rewrite Hle, Hy.
        reflexivity.
    + rewrite (Hwin Hy). cbn [fst snd]. split; [|discriminate].
      exists (old ++ [s]). split.
      * rewrite <- app_assoc. exact Hq.
      * intros _ H. destruct old; discriminate.
Qed.

Lemma estimateThrustModel_front_only_witness :
  let c := control0 [(ms 0, 1 # 4); (ms 30, 1 # 2)] in
  let r := estimateThrustModel (ms 50) (mkV3 0 0 10) param0 c in
  estimateThrustModel (ms 50) (mkV3 0 0 9) param0 (snd r) = (false, snd r).
Proof.
  apply (estimateThrustModel_front_only (ms 50) (mkV3 0 0 10) (mkV3 0 0 9) param0 param0
           (control0 [(ms 0, 1 # 4); (ms 30, 1 # 2)])).
  reflexivity.
Defined.

(** * Further properties of sequences of calls *)

Lemma estimateThrustModel_keeps_configuration (t_now : Time) (est_a : Vector3d)
    (param : Parameter_t) (c : ControlBase) :
  let c' := snd (estimateThrustModel t_now est_a param c) in
  param_ c' = param_ c /\ rho2_ c' = rho2_ c.
Proof.
  unfold estimateThrustModel.
  destruct (estimateThrustModel_loop_spec t_now est_a c (timed_thrust_ c))
    as (old & rest & Hq & Hold & Hrest).
  destruct rest as [|s tl].
  - rewrite Hrest. simpl. auto.
  - destruct Hrest as (Hle & Hyoung & Hwin).
    destruct (Qlt_le_dec (age t_now s) t_min) as [Hy|Hy].
    + rewrite (Hyoung Hy). simpl. auto.
    + rewrite (Hwin Hy). simpl. auto.
Qed.

Lemma call_keeps_configuration {M : Libm} (c : ControlBase) (op : Call) :
  param_ (call c op) = param_ c /\ rho2_ (call c op) = rho2_ c.
Proof.
  destruct op as [k i|t_now est_a param|]; cbn [call].
  - unfold control_cycle.
    pose proof (calculateControl_state k (cy_now i) (cy_des i) (cy_odom i) (cy_imu i) c) as Hs.
    cbv zeta in Hs. rewrite Hs. simpl. auto.
  - apply estimateThrustModel_keeps_configuration.
  - simpl. auto.
Qed.

Lemma calls_keep_param {M : Libm} (ops : list Call) : forall c,
  param_ (fold_left call ops c) = param_ c.
Proof.
  induction ops as [|op ops IH]; intros c; [reflexivity|].
  cbn [fold_left]. rewrite IH. apply call_keeps_configuration.
Qed.

(** X6. No call changes the configuration: over every sequence of calls of
    the control laws, the estimator and the reset, the parameters and the
    forgetting factor are the ones the controller started with. *)
Theorem calls_keep_configuration {M : Libm} (ops : list Call) (c : ControlBase) :
  let c' := fold_left call ops c in
  param_ c' = param_ c /\ rho2_ c' = rho2_ c.
Proof.
  revert c. induction ops as [|op ops IH]; intros c; [simpl; auto|].
  cbn [fold_left]. cbv zeta.
  destruct (call_keeps_configuration c op) as (Hp & Hr).
  destruct (IH (call c op)) as (H1 & H2).
  rewrite H1, H2, Hp, Hr. auto.
Qed.

(** X7. [resetThrustMapping] forgets what the estimator has learnt and
    nothing else: after any sequence of calls it gives the gain
    [gra / hover_percentage] of the parameters and the covariance [10^6],
    and leaves the queue as it is.  Resetting twice is resetting once. *)
Theorem resetThrustMapping_forgets {M : Libm} (ops : list Call) (c : ControlBase) :
  let c1 := fold_left call ops c in
  let c' := resetThrustMapping c1 in
  thr2acc_ c' = gra (param_ c) / hover_percentage (thr_map (param_ c)) /\
  P_ c' = 1000000 /\
  timed_thrust_ c' = timed_thrust_ c1 /\
  resetThrustMapping c' = c'.
Proof.
  cbv zeta. unfold resetThrustMapping at 1 2 3. cbn [thr2acc_ P_ timed_thrust_ set_mapping].
  rewrite calls_keep_param. repeat split.
Qed.

(** ** The queue and the clock *)

Lemma stamps_nondecreasing_suffix (a b : list TimedThrust) :
  stamps_nondecreasing (a ++ b) -> stamps_nondecreasing b.
Proof.
  intros H old s rest E. apply (H (a ++ old) s rest).
  rewrite E, app_assoc. reflexivity.
Qed.

Lemma queue_ok_suffix (t : Time) (a b : list TimedThrust) :
  queue_ok t (a ++ b) -> queue_ok t b.
Proof.
  intros (Hs & Hall). split.
  - eapply stamps_nondecreasing_suffix, Hs.
  - apply Forall_app in Hall. apply Hall.
Qed.

Lemma queue_ok_push (t t' : Time) (q : list TimedThrust) (x : Q) :
  queue_ok t q -> (t <= t')%Z -> queue_ok t' (q ++ [(t', x)]).
Proof.
  intros (Hs & Hall) Hle. split.
  - intros old s rest E.
    destruct rest as [|r rest] using rev_ind; [constructor|]. clear IHrest.
    change (old ++ s :: rest ++ [r]) with (old ++ (s :: rest) ++ [r]) in E.
    rewrite app_assoc in E. apply app_inj_tail in E. destruct E as (Eq & Er). subst r.
    apply Forall_app. split.
    + apply (Hs old s rest Eq).
    + constructor; [|constructor]. simpl.
      rewrite Eq in Hall. apply Forall_app in Hall. destruct Hall as (_ & Hall).
      inversion Hall as [|s' l' Hx Hy]; subst. cbv beta in Hx.
      exact (Z.le_trans _ _ _ Hx Hle).
  - apply Forall_app. split.
    + eapply Forall_impl; [|exact Hall]. intros s H. cbv beta in H.
      exact (Z.le_trans _ _ _ H Hle).
    + constructor; [apply Z.le_refl|constructor].
Qed.

(** X8. When the clock does not go back, the queue stays ordered: if the
    time stamps of the queue do not decrease and none is later than [t],
    a control-law call at a time [t_now >= t] leaves a queue with the same
    property for [t_now], and a call of the estimator, at any time, keeps
    the property. *)
Theorem calls_keep_queue_ordered {M : Libm} (t : Time) (c : ControlBase) :
  queue_ok t (timed_thrust_ c) ->
  (forall k i, (t <= cy_now i)%Z ->
     queue_ok (cy_now i) (timed_thrust_ (control_cycle k c i))) /\
  (forall t_now est_a param,
     queue_ok t (timed_thrust_ (snd (estimateThrustModel t_now est_a param c)))).
Proof.
  intros Hok. split.
  - intros k i Hle. unfold control_cycle.
    pose proof (calculateControl_state k (cy_now i) (cy_des i) (cy_odom i) (cy_imu i) c) as Hs.
    cbv zeta in Hs. rewrite Hs. cbn [timed_thrust_].
    rewrite pop_while_over_100_skipn.
    set (q := timed_thrust_ c ++ _).
    apply (queue_ok_suffix _ (firstn (length q - 100) q)).
    rewrite firstn_skipn. unfold q. now apply queue_ok_push with (t := t).
  - intros t_now est_a param.
    destruct (estimateThrustModel_loop_spec t_now est_a c (timed_thrust_ c))
      as (old & rest & Hq & Hold & Hrest).
    unfold estimateThrustModel. rewrite Hq in Hok.
    destruct rest as [|s tl].
    + rewrite Hrest. simpl. split; [|constructor].
      intros o s r E. destruct o; discriminate.
    + destruct Hrest as (Hle & Hyoung & Hwin).
      destruct (Qlt_le_dec (age t_now s) t_min) as [Hy|Hy].
      * rewrite (Hyoung Hy). simpl. eapply queue_ok_suffix, Hok.
      * rewrite (Hwin Hy). simpl.
        apply (queue_ok_suffix t (old ++ [s])). rewrite <- app_assoc. exact Hok.
Qed.

Lemma calls_keep_queue_ordered_witness :
  queue_ok (ms 20) (timed_thrust_ (@control_cycle libm0 LinearControl (control0 [(ms 0, 1 # 2)])
                                      (cycle_hover 2))).
Proof.
  apply (@calls_keep_queue_ordered libm0 (ms 0) (control0 [(ms 0, 1 # 2)])).
  - split.
    + intros old s rest E. destruct old as [|a [|b old]]; simpl in E; inversion E; subst.
      constructor.
    + repeat constructor. simpl. unfold ms. lia.
  - simpl. unfold ms. lia.
Defined.



(** * Further properties of the control laws *)

(** ** Vectors and quaternions *)

Lemma squaredNorm_nonneg (v : Vector3d) : 0 <= squaredNorm v.
Proof.
  unfold squaredNorm, dot.
  pose proof (square_nonneg (vx v)). pose proof (square_nonneg (vy v)).
  pose proof (square_nonneg (vz v)). lra.
Qed.

(** Lagrange's identity. *)
Lemma squaredNorm_cross (a b : Vector3d) :
  squaredNorm (cross a b) == squaredNorm a * squaredNorm b - dot a b * dot a b.
Proof. unfold squaredNorm, dot, cross. simpl. ring. Qed.

Lemma dot_cross_l (a b : Vector3d) : dot (cross a b) a == 0.
Proof. unfold dot, cross. simpl. ring. Qed.

Lemma dot_cross_r (a b : Vector3d) : dot (cross a b) b == 0.
Proof. unfold dot, cross. simpl. ring. Qed.

Lemma qsquaredNorm_qmul (a b : Quaterniond) :
  qsquaredNorm (qmul a b) == qsquaredNorm a * qsquaredNorm b.
Proof. unfold qsquaredNorm, qmul. simpl. ring. Qed.

Lemma qsquaredNorm_inverse (b : Quaterniond) :
  0 < qsquaredNorm b -> qsquaredNorm (inverse b) * qsquaredNorm b == 1.
Proof.
  intros Hn. assert (Hnz : ~ qsquaredNorm b == 0) by lra.
  unfold inverse. apply Qlt_bool_true in Hn. rewrite Hn.
  unfold qsquaredNorm in *. simpl. field. exact Hnz.
Qed.

(** The body z axis of a unit quaternion is a unit vector. *)
Lemma toRotationMatrix_col2_unit (q : Quaterniond) :
  qsquaredNorm q == 1 -> squaredNorm (col2 (toRotationMatrix q)) == 1.
Proof.
  intros H.
  assert (E : squaredNorm (col2 (toRotationMatrix q))
              == 1 + 4 * (qx q * qx q + qy q * qy q) * (qsquaredNorm q - 1)).
  { unfold squaredNorm, dot, toRotationMatrix, qsquaredNorm. simpl. ring. }
  rewrite E, H. ring.
Qed.

Lemma calculateControl_u_q {M : Libm} k t_now des odom imu c :
  u_q (snd (fst (calculateControl k t_now des odom imu c)))
  = qmul (qmul (imu_q imu) (inverse (odom_q odom))) (control_q k c des odom).
Proof.
  destruct k; cbn [calculateControl control_q];
    unfold LinearControl_calculateControl, GeometricControl_calculateControl;
    cbn [fst snd u_q]; reflexivity.
Qed.

(** ** Thrust *)

(** X10. For an odometry orientation without x and y component (a level
    vehicle, whatever its yaw) the two control laws command the same
    thrust. *)
Theorem level_thrust_agrees {M : Libm} (t_now : Time) (des : Desired_State_t)
    (odom : Odom_Data_t) (imu : Imu_Data_t) (c : ControlBase) :
  qx (odom_q odom) == 0 -> qy (odom_q odom) == 0 ->
  u_thrust (snd (fst (calculateControl GeometricControl t_now des odom imu c)))
  == u_thrust (snd (fst (calculateControl LinearControl t_now des odom imu c))).
Proof.
  intros Hx Hy. rewrite !calculateControl_thrust.
  unfold control_thrust, computeDesiredCollectiveThrustSignal, dot, toRotationMatrix.
  cbn [col2 vx vy vz]. rewrite Hx, Hy.
  unfold Qdiv. apply Qmult_comp; [ring|reflexivity].
Qed.

Lemma level_thrust_agrees_witness :
  let odom := mkOdom (mkV3 1 2 3) (mkV3 0 0 1) (mkQuat (3 # 5) 0 0 (4 # 5)) in
  u_thrust (snd (fst (@calculateControl libm0 GeometricControl (ms 10) des_hover odom imu_level
                        (control0 []))))
  == u_thrust (snd (fst (@calculateControl libm0 LinearControl (ms 10) des_hover odom imu_level
                           (control0 [])))).
Proof.
  apply (@level_thrust_agrees libm0 (ms 10) des_hover
           (mkOdom (mkV3 1 2 3) (mkV3 0 0 1) (mkQuat (3 # 5) 0 0 (4 # 5))) imu_level
           (control0 [])); reflexivity.
Defined.

(** X11. With a unit odometry quaternion and a gain that is not zero, the
    thrust of the geometric law times the gain is never larger in
    magnitude than the desired acceleration: its square is at most the
    squared norm of the desired acceleration. *)
Theorem geometric_thrust_bounded {M : Libm} (t_now : Time) (des : Desired_State_t)
    (odom : Odom_Data_t) (imu : Imu_Data_t) (c : ControlBase) :
  ~ thr2acc_ c == 0 -> qsquaredNorm (odom_q odom) == 1 ->
  let thrust := u_thrust (snd (fst (calculateControl GeometricControl t_now des odom imu c))) in
  (thrust * thr2acc_ c) * (thrust * thr2acc_ c)
  <= squaredNorm (desired_acceleration c des odom).
Proof.
  intros Hg Hq thrust.
  set (a := desired_acceleration c des odom).
  set (b3 := col2 (toRotationMatrix (odom_q odom))).
  assert (Ht : thrust * thr2acc_ c == dot a b3).
  { unfold thrust. rewrite calculateControl_thrust. unfold control_thrust.
    fold a b3. field. exact Hg. }
  rewrite Ht.
  pose proof (squaredNorm_cross a b3) as HL.
  pose proof (squaredNorm_nonneg (cross a b3)) as Hc.
  pose proof (toRotationMatrix_col2_unit (odom_q odom) Hq) as Hb. fold b3 in Hb.
  rewrite Hb in HL. lra.
Qed.

Lemma geometric_thrust_bounded_witness :
  let thrust := u_thrust (snd (fst (@calculateControl libm0 GeometricControl (ms 10) des_hover
                                      odom_rolled imu_rolled (control0 [])))) in
  (thrust * thr2acc_ (control0 [])) * (thrust * thr2acc_ (control0 []))
  <= squaredNorm (desired_acceleration (control0 []) des_hover odom_rolled).
Proof.
  apply (@geometric_thrust_bounded libm0 (ms 10) des_hover odom_rolled imu_rolled (control0 [])).
  - discriminate.
  - reflexivity.
Defined.

(** ** Attitude *)

(** X12. The frame correction scales the squared norm of the attitude by
    the one of [imu.q] over the one of [odom.q]; so with unit [imu.q] and
    [odom.q] the output [u.q] has the norm of the attitude [q] computed by
    the law.  With a zero [odom.q], whose [inverse()] is the zero
    quaternion, the output is the zero quaternion. *)
Theorem frame_correction_norm {M : Libm} (k : Controller) (t_now : Time)
    (des : Desired_State_t) (odom : Odom_Data_t) (imu : Imu_Data_t) (c : ControlBase) :
  let u := u_q (snd (fst (calculateControl k t_now des odom imu c))) in
  let q := control_q k c des odom in
  (0 < qsquaredNorm (odom_q odom) ->
   qsquaredNorm u * qsquaredNorm (odom_q odom) == qsquaredNorm (imu_q imu) * qsquaredNorm q) /\
  (qsquaredNorm (imu_q imu) == 1 -> qsquaredNorm (odom_q odom) == 1 ->
   qsquaredNorm u == qsquaredNorm q) /\
  (quat_eq (odom_q odom) qzero -> quat_eq u qzero).
Proof.
  intros u q. unfold u. rewrite calculateControl_u_q. fold q.
  assert (Hgen : 0 < qsquaredNorm (odom_q odom) ->
                 qsquaredNorm (qmul (qmul (imu_q imu) (inverse (odom_q odom))) q)
                 * qsquaredNorm (odom_q odom)
                 == qsquaredNorm (imu_q imu) * qsquaredNorm q).
  { intros Hn. rewrite !qsquaredNorm_qmul.
    pose proof (qsquaredNorm_inverse (odom_q odom) Hn) as Hi.
    setoid_replace (qsquaredNorm (imu_q imu) * qsquaredNorm (inverse (odom_q odom))
                    * qsquaredNorm q * qsquaredNorm (odom_q odom))
      with (qsquaredNorm (imu_q imu) * qsquaredNorm q
            * (qsquaredNorm (inverse (odom_q odom)) * qsquaredNorm (odom_q odom))) by ring.
    rewrite Hi. ring. }
  split; [exact Hgen|]. split.
  - intros Hi Ho. assert (Hn : 0 < qsquaredNorm (odom_q odom)) by lra.
    specialize (Hgen Hn). rewrite Hi, Ho in Hgen. lra.
  - intros (Hw & Hx & Hy & Hz). unfold qzero in *. cbn [qw qx qy qz] in *.
    assert (Hn : qsquaredNorm (odom_q odom) <= 0).
    { unfold qsquaredNorm. rewrite Hw, Hx, Hy, Hz. lra. }
    unfold inverse. apply Qlt_bool_false in Hn. rewrite Hn.
    unfold quat_eq, qmul. cbn [qw qx qy qz]. repeat split; ring.
Qed.

Lemma frame_correction_norm_witness :
  let u := u_q (snd (fst (@calculateControl libm0 GeometricControl (ms 10) des_hover odom_rolled
                            imu_level (control0 [])))) in
  qsquaredNorm u
  == qsquaredNorm (@control_q libm0 GeometricControl (control0 []) des_hover odom_rolled).
Proof.
  apply (@frame_correction_norm libm0 GeometricControl (ms 10) des_hover odom_rolled imu_level
           (control0 [])); reflexivity.
Defined.

Lemma qsquaredNorm_AngleAxisd {M : Libm} (angle : Q) (axis : Axis) :
  qsquaredNorm (AngleAxisd angle axis) == circle_at ((1 # 2) * angle).
Proof.
  unfold circle_at.
  set (s := m_sin ((1 # 2) * angle)). set (k := m_cos ((1 # 2) * angle)).
  destruct axis; unfold AngleAxisd, qsquaredNorm; cbn [qw qx qy qz]; fold s k; ring.
Qed.

Lemma LinearControl_q_angles {M : Libm} (c : ControlBase) (des : Desired_State_t)
    (odom : Odom_Data_t) :
  LinearControl_q c des odom
  = qmul (qmul (AngleAxisd (des_yaw des) UnitZ)
               (AngleAxisd (LinearControl_pitch c des odom) UnitY))
         (AngleAxisd (LinearControl_roll c des odom) UnitX).
Proof. reflexivity. Qed.

(** X13. For a gravity parameter that is not zero, the squared norm of the
    attitude [q] of the linear law is the product of [sin^2 + cos^2], as
    the math library computes them, at the halves of the desired yaw, of
    the pitch and of the roll; and with unit [imu.q] and [odom.q] the
    output [u.q] has the same squared norm.  So the attitude is a unit
    quaternion wherever the sine and cosine of the library lie on the unit
    circle at these three arguments. *)
Theorem linear_attitude_unit {M : Libm} (t_now : Time) (des : Desired_State_t)
    (odom : Odom_Data_t) (imu : Imu_Data_t) (c : ControlBase) :
  ~ gra (param_ c) == 0 ->
  let yaw2 := (1 # 2) * des_yaw des in
  let pitch2 := (1 # 2) * LinearControl_pitch c des odom in
  let roll2 := (1 # 2) * LinearControl_roll c des odom in
  let n := circle_at yaw2 * circle_at pitch2 * circle_at roll2 in
  let u := u_q (snd (fst (calculateControl LinearControl t_now des odom imu c))) in
  qsquaredNorm (LinearControl_q c des odom) == n /\
  (qsquaredNorm (imu_q imu) == 1 -> qsquaredNorm (odom_q odom) == 1 ->
   qsquaredNorm u == n) /\
  (circle_at yaw2 == 1 -> circle_at pitch2 == 1 -> circle_at roll2 == 1 -> n == 1).
Proof.
  intros _ yaw2 pitch2 roll2 n u.
  assert (Hq : qsquaredNorm (LinearControl_q c des odom) == n).
  { rewrite LinearControl_q_angles, !qsquaredNorm_qmul, !qsquaredNorm_AngleAxisd.
    reflexivity. }
  split; [exact Hq|]. split.
  - intros Hi Ho. unfold u. rewrite calculateControl_u_q. cbn [control_q].
    assert (Hn : 0 < qsquaredNorm (odom_q odom)) by lra.
    pose proof (qsquaredNorm_inverse (odom_q odom) Hn) as Hinv.
    rewrite Ho in Hinv.
    rewrite !qsquaredNorm_qmul, Hq, Hi.
    setoid_replace (qsquaredNorm (inverse (odom_q odom)))
      with (qsquaredNorm (inverse (odom_q odom)) * 1) by ring.
    rewrite Hinv. ring.
  - intros H1 H2 H3. unfold n. rewrite H1, H2, H3. reflexivity.
Qed.

(** Hovering with a desired yaw of zero: every angle is zero, where sine
    is 0 and cosine is 1. *)
Lemma linear_attitude_unit_witness :
  qsquaredNorm (@LinearControl_q libm0 (control0 []) des_hover odom_rolled) == 1 /\
  qsquaredNorm (u_q (snd (fst (@calculateControl libm0 LinearControl (ms 10) des_hover
                                 odom_rolled imu_rolled (control0 []))))) == 1.
Proof.
  destruct (@linear_attitude_unit libm0 (ms 10) des_hover odom_rolled imu_rolled (control0 []))
    as (Hq & Hu & Hn).
  - discriminate.
  - assert (H1 : @circle_at libm0 ((1 # 2) * des_yaw des_hover)
                 * @circle_at libm0 ((1 # 2) * @LinearControl_pitch libm0 (control0 []) des_hover
                                                  odom_rolled)
                 * @circle_at libm0 ((1 # 2) * @LinearControl_roll libm0 (control0 []) des_hover
                                                  odom_rolled) == 1).
    { apply Hn; reflexivity. }
    split.
    + rewrite Hq. exact H1.
    + rewrite Hu by reflexivity. exact H1.
Defined.

(** X14. For a gravity parameter that is not zero: when the desired
    acceleration has no horizontal component and the math library gives
    [sin 0 = 0] and [cos 0 = 1], the linear law asks for no roll and no
    pitch, and its attitude [q] is the rotation by the desired yaw about
    the z axis. *)
Theorem linear_attitude_pure_yaw {M : Libm} (des : Desired_State_t) (odom : Odom_Data_t)
    (c : ControlBase) :
  ~ gra (param_ c) == 0 ->
  (forall x, x == 0 -> m_sin x == 0 /\ m_cos x == 1) ->
  vx (desired_acceleration c des odom) == 0 ->
  vy (desired_acceleration c des odom) == 0 ->
  quat_eq (LinearControl_q c des odom) (AngleAxisd (des_yaw des) UnitZ).
Proof.
  intros Hg H0 Hx Hy.
  unfold LinearControl_q. cbv zeta.
  set (yaw_odom := fromQuaternion2yaw (odom_q odom)).
  set (roll := (vx (desired_acceleration c des odom) * m_sin yaw_odom
                - vy (desired_acceleration c des odom) * m_cos yaw_odom) / gra (param_ c)).
  set (pitch := (vx (desired_acceleration c des odom) * m_cos yaw_odom
                 + vy (desired_acceleration c des odom) * m_sin yaw_odom) / gra (param_ c)).
  assert (Hr : (1 # 2) * roll == 0).
  { unfold roll. rewrite Hx, Hy. field. exact Hg. }
  assert (Hp : (1 # 2) * pitch == 0).
  { unfold pitch. rewrite Hx, Hy. field. exact Hg. }
  destruct (H0 _ Hr) as (Hrs & Hrc). destruct (H0 _ Hp) as (Hps & Hpc).
  unfold quat_eq, qmul, AngleAxisd. cbn [qw qx qy qz].
  rewrite Hrs, Hrc, Hps, Hpc. repeat split; ring.
Qed.

Lemma linear_attitude_pure_yaw_witness :
  quat_eq (@LinearControl_q libm0 (control0 []) (mkDes zero3 zero3 zero3 (1 # 3)) odom_rolled)
          (@AngleAxisd libm0 (1 # 3) UnitZ).
Proof.
  apply (@linear_attitude_pure_yaw libm0 (mkDes zero3 zero3 zero3 (1 # 3)) odom_rolled
           (control0 [])).
  - discriminate.
  - intros x Hx. simpl. rewrite Hx. split; reflexivity.
  - reflexivity.
  - reflexivity.
Defined.

(** ** The desired rotation of the geometric law *)

Lemma normalized_pos {M : Libm} (n : Vector3d) :
  0 < squaredNorm n -> normalized n = vscale_div n (m_sqrt (squaredNorm n)).
Proof.
  intros H. unfold normalized. apply Qlt_bool_true in H. now rewrite H.
Qed.

Lemma root_nonzero (s z : Q) : s * s == z -> 0 < z -> ~ s == 0.
Proof. intros Hs Hz H0. rewrite H0 in Hs. lra. Qed.

Lemma squaredNorm_vscale_div (n : Vector3d) (s : Q) :
  s * s == squaredNorm n -> 0 < squaredNorm n -> squaredNorm (vscale_div n s) == 1.
Proof.
  intros Hs Hn. pose proof (root_nonzero s _ Hs Hn) as Hnz.
  assert (E : squaredNorm (vscale_div n s) == squaredNorm n / (s * s)).
  { unfold squaredNorm, dot, vscale_div. simpl. field. exact Hnz. }
  rewrite E, Hs. field. lra.
Qed.

Lemma dot_vscale_div_l (n b : Vector3d) (s : Q) :
  ~ s == 0 -> dot (vscale_div n s) b == dot n b / s.
Proof. intros Hnz. unfold dot, vscale_div. simpl. field. exact Hnz. Qed.

Lemma cross_vscale_div_self (n : Vector3d) (s : Q) :
  ~ s == 0 -> veq (cross (vscale_div n s) n) zero3.
Proof.
  intros Hnz. unfold veq, cross, vscale_div, zero3. simpl.
  repeat split; field; exact Hnz.
Qed.

(** X15. Away from the degenerate cases, and where the square root is
    exact, the desired rotation matrix of the geometric law is
    orthonormal: for a desired acceleration [a] that is not zero, with
    [b3c x a_yaw] not zero, and [sqrt] exact at the two squared norms, the
    columns [b1c], [b2c], [b3c] of [R_des] are unit vectors that are
    pairwise orthogonal; [b2c] is orthogonal to [a_yaw]; and [b3c] is
    parallel to [a], with [b3c . a] the computed norm of [a]. *)
Theorem geometric_R_des_orthonormal {M : Libm} (des : Desired_State_t) (odom : Odom_Data_t)
    (c : ControlBase) :
  let a := desired_acceleration c des odom in
  let b3c := GeometricControl_b3c c des odom in
  let b2c := GeometricControl_b2c c des odom in
  let R := GeometricControl_R_des c des odom in
  let n := cross b3c (a_yaw des) in
  0 < squaredNorm a ->
  m_sqrt (squaredNorm a) * m_sqrt (squaredNorm a) == squaredNorm a ->
  0 < squaredNorm n ->
  m_sqrt (squaredNorm n) * m_sqrt (squaredNorm n) == squaredNorm n ->
  (squaredNorm (col0 R) == 1 /\ squaredNorm (col1 R) == 1 /\ squaredNorm (col2 R) == 1) /\
  (dot (col0 R) (col1 R) == 0 /\ dot (col0 R) (col2 R) == 0 /\ dot (col1 R) (col2 R) == 0) /\
  dot b2c (a_yaw des) == 0 /\
  veq (cross b3c a) zero3 /\
  dot b3c a == m_sqrt (squaredNorm a).
Proof.
  intros a b3c b2c R n Ha Hs1 Hn Hs2.
  set (s1 := m_sqrt (squaredNorm a)) in *.
  set (s2 := m_sqrt (squaredNorm n)) in *.
  pose proof (root_nonzero s1 _ Hs1 Ha) as Hnz1.
  pose proof (root_nonzero s2 _ Hs2 Hn) as Hnz2.
  assert (E3 : b3c = vscale_div a s1).
  { unfold b3c, GeometricControl_b3c. fold a. now rewrite normalized_pos. }
  assert (E2 : b2c = vscale_div n s2).
  { unfold b2c, GeometricControl_b2c. fold b3c. fold n. now rewrite normalized_pos. }
  assert (U3 : squaredNorm b3c == 1).
  { rewrite E3. now apply squaredNorm_vscale_div. }
  assert (U2 : squaredNorm b2c == 1).
  { rewrite E2. now apply squaredNorm_vscale_div. }
  assert (O23 : dot b2c b3c == 0).
  { rewrite E2, dot_vscale_div_l by exact Hnz2. unfold n.
    rewrite dot_cross_l. field. exact Hnz2. }
  assert (ER : R = mkM3 (cross b2c b3c) b2c b3c) by reflexivity.
  rewrite ER. cbn [col0 col1 col2].
  repeat split; try assumption.
  - rewrite squaredNorm_cross, U2, U3, O23. ring.
  - apply dot_cross_l.
  - apply dot_cross_r.
  - rewrite E2, dot_vscale_div_l by exact Hnz2. unfold n.
    rewrite dot_cross_r. field. exact Hnz2.
  - rewrite E3. apply (cross_vscale_div_self a s1 Hnz1).
  - rewrite E3. apply (cross_vscale_div_self a s1 Hnz1).
  - rewrite E3. apply (cross_vscale_div_self a s1 Hnz1).
  - rewrite E3, dot_vscale_div_l by exact Hnz1.
    change (dot a a) with (squaredNorm a). rewrite <- Hs1. field. exact Hnz1.
Qed.

Lemma geometric_R_des_orthonormal_witness :
  let R := @GeometricControl_R_des libm_circle (control0 []) des_climb odom_level in
  (squaredNorm (col0 R) == 1 /\ squaredNorm (col1 R) == 1 /\ squaredNorm (col2 R) == 1) /\
  (dot (col0 R) (col1 R) == 0 /\ dot (col0 R) (col2 R) == 0 /\ dot (col1 R) (col2 R) == 0) /\
  dot (@GeometricControl_b2c libm_circle (control0 []) des_climb odom_level)
      (@a_yaw libm_circle des_climb) == 0 /\
  veq (cross (@GeometricControl_b3c libm_circle (control0 []) des_climb odom_level)
             (desired_acceleration (control0 []) des_climb odom_level)) zero3 /\
  dot (@GeometricControl_b3c libm_circle (control0 []) des_climb odom_level)
      (desired_acceleration (control0 []) des_climb odom_level)
  == @m_sqrt libm_circle (squaredNorm (desired_acceleration (control0 []) des_climb odom_level)).
Proof.
  apply (@geometric_R_des_orthonormal libm_circle des_climb odom_level (control0 []));
    reflexivity.
Defined.

(** The matrix of that example. *)
Example geometric_R_des_climb :
  meq (@GeometricControl_R_des libm_circle (control0 []) des_climb odom_level)
      (mkM3 (mkV3 (4 # 5) 0 (- (3 # 5))) (mkV3 0 1 0) (mkV3 (3 # 5) 0 (4 # 5))).
Proof. vm_compute. repeat split; reflexivity. Qed.

(** ** The attitude of the geometric law *)

Lemma toRotationMatrix_quat_eq (a b : Quaterniond) :
  quat_eq a b -> meq (toRotationMatrix a) (toRotationMatrix b).
Proof.
  intros (Hw & Hx & Hy & Hz). unfold meq, veq, toRotationMatrix. cbn [col0 col1 col2 vx vy vz].
  rewrite Hw, Hx, Hy, Hz. repeat split; reflexivity.
Qed.

Lemma meq_trans (a b c : Matrix3d) : meq a b -> meq b c -> meq a c.
Proof.
  unfold meq, veq. intros H1 H2.
  repeat match goal with H : _ /\ _ |- _ => destruct H end.
  repeat split; etransitivity; eassumption.
Qed.

(** The conversion of a rotation matrix with a positive trace to a
    quaternion, and back: for orthogonal unit vectors [u] and [v] and an
    exact square root, the matrix of the quaternion of [(u x v | u | v)]
    is that matrix. *)
Lemma rotation_roundtrip {M : Libm} (u v : Vector3d) :
  squaredNorm u == 1 -> squaredNorm v == 1 -> dot u v == 0 ->
  let R := mkM3 (cross u v) u v in
  0 < trace R ->
  m_sqrt (trace R + 1) * m_sqrt (trace R + 1) == trace R + 1 ->
  meq (toRotationMatrix (Quaterniond_of_matrix R)) R.
Proof.
  intros U V O R Ht Hs.
  assert (Hnz : ~ m_sqrt (trace R + 1) == 0).
  { apply (root_nonzero _ _ Hs). lra. }
  unfold Quaterniond_of_matrix. apply Qlt_bool_true in Ht. rewrite Ht.
  set (s := m_sqrt (trace R + 1)) in *.
  unfold meq, veq, toRotationMatrix, R, trace, coeff, mcol, vcoeff, cross, squaredNorm, dot in *.
  cbn [col0 col1 col2 vx vy vz qw qx qy qz] in *.
  destruct u as [u1 u2 u3], v as [v1 v2 v3]. cbn [vx vy vz] in *.
  unfold Qdiv.
  set (i := / s). assert (Hi : i * s == 1) by (unfold i; field; exact Hnz). clearbody i.
  set (hf := 1 # 2). assert (Hhf : hf + hf == 1) by reflexivity. clearbody hf.
  set (two := 2). assert (H2 : two == 1 + 1) by reflexivity. clearbody two.
  clear Ht Hnz.
  repeat split; Groebner.ideal.
Qed.

Lemma geometric_axes {M : Libm} (des : Desired_State_t) (odom : Odom_Data_t) (c : ControlBase) :
  let a := desired_acceleration c des odom in
  let b3c := GeometricControl_b3c c des odom in
  let b2c := GeometricControl_b2c c des odom in
  let n := cross b3c (a_yaw des) in
  0 < squaredNorm a ->
  m_sqrt (squaredNorm a) * m_sqrt (squaredNorm a) == squaredNorm a ->
  0 < squaredNorm n ->
  m_sqrt (squaredNorm n) * m_sqrt (squaredNorm n) == squaredNorm n ->
  b3c = vscale_div a (m_sqrt (squaredNorm a)) /\
  squaredNorm b2c == 1 /\ squaredNorm b3c == 1 /\ dot b2c b3c == 0.
Proof.
  intros a b3c b2c n Ha Hs1 Hn Hs2.
  pose proof (root_nonzero _ _ Hs2 Hn) as Hnz2.
  assert (E3 : b3c = vscale_div a (m_sqrt (squaredNorm a))).
  { unfold b3c, GeometricControl_b3c. fold a. now rewrite normalized_pos. }
  assert (E2 : b2c = vscale_div n (m_sqrt (squaredNorm n))).
  { unfold b2c, GeometricControl_b2c. fold b3c. fold n. now rewrite normalized_pos. }
  split; [exact E3|]. split; [|split].
  - rewrite E2. now apply squaredNorm_vscale_div.
  - rewrite E3. now apply squaredNorm_vscale_div.
  - rewrite E2, dot_vscale_div_l by exact Hnz2. unfold n.
    rewrite dot_cross_l. field. exact Hnz2.
Qed.

(** X16. The attitude that the geometric law outputs is the desired
    rotation: away from the degenerate cases (desired acceleration [a] and
    [b3c x a_yaw] not zero), for a matrix [R_des] with positive trace, a
    square root that is exact at the three arguments it gets, and
    [imu.q] equal to a unit [odom.q], the rotation matrix of [u.q] is
    [R_des].  So the body z axis of the commanded attitude is [b3c], the
    direction of the desired acceleration. *)
Theorem geometric_attitude_is_R_des {M : Libm} (t_now : Time) (des : Desired_State_t)
    (odom : Odom_Data_t) (imu : Imu_Data_t) (c : ControlBase) :
  let a := desired_acceleration c des odom in
  let b3c := GeometricControl_b3c c des odom in
  let n := cross b3c (a_yaw des) in
  let R := GeometricControl_R_des c des odom in
  let u := u_q (snd (fst (calculateControl GeometricControl t_now des odom imu c))) in
  0 < squaredNorm a ->
  m_sqrt (squaredNorm a) * m_sqrt (squaredNorm a) == squaredNorm a ->
  0 < squaredNorm n ->
  m_sqrt (squaredNorm n) * m_sqrt (squaredNorm n) == squaredNorm n ->
  0 < trace R ->
  m_sqrt (trace R + 1) * m_sqrt (trace R + 1) == trace R + 1 ->
  quat_eq (imu_q imu) (odom_q odom) ->
  qsquaredNorm (odom_q odom) == 1 ->
  meq (toRotationMatrix u) R /\
  veq (col2 (toRotationMatrix u)) b3c /\
  veq (col2 (toRotationMatrix u)) (vscale_div a (m_sqrt (squaredNorm a))).
Proof.
  intros a b3c n R u Ha Hs1 Hn Hs2 Ht Hs3 Heq Hunit.
  destruct (geometric_axes des odom c Ha Hs1 Hn Hs2) as (E3 & U2 & U3 & O23).
  fold a b3c in E3, U3, O23.
  set (b2c := GeometricControl_b2c c des odom) in *.
  assert (ER : R = mkM3 (cross b2c b3c) b2c b3c).
  { unfold R, GeometricControl_R_des. reflexivity. }
  assert (Hround : meq (toRotationMatrix (GeometricControl_q c des odom)) R).
  { unfold GeometricControl_q. fold R. rewrite ER in Ht, Hs3 |- *.
    exact (rotation_roundtrip b2c b3c U2 U3 O23 Ht Hs3). }
  assert (Hu : quat_eq u (GeometricControl_q c des odom)).
  { unfold u. rewrite calculateControl_u_q. cbn [control_q].
    apply frame_correction_cancels; [exact Heq|lra]. }
  assert (HR : meq (toRotationMatrix u) R).
  { eapply meq_trans; [apply toRotationMatrix_quat_eq, Hu|exact Hround]. }
  split; [exact HR|].
  assert (H3 : veq (col2 (toRotationMatrix u)) b3c).
  { destruct HR as (_ & _ & H). rewrite ER in H. exact H. }
  split; [exact H3|]. rewrite <- E3. exact H3.
Qed.

Lemma geometric_attitude_is_R_des_witness :
  let u := u_q (snd (fst (@calculateControl libm_circle GeometricControl (ms 10) des_bank
                            odom_rolled imu_rolled (control0 [])))) in
  meq (toRotationMatrix u) (@GeometricControl_R_des libm_circle (control0 []) des_bank odom_rolled) /\
  veq (col2 (toRotationMatrix u))
      (@GeometricControl_b3c libm_circle (control0 []) des_bank odom_rolled) /\
  veq (col2 (toRotationMatrix u))
      (vscale_div (desired_acceleration (control0 []) des_bank odom_rolled)
         (@m_sqrt libm_circle
            (squaredNorm (desired_acceleration (control0 []) des_bank odom_rolled)))).
Proof.
  apply (@geometric_attitude_is_R_des libm_circle (ms 10) des_bank odom_rolled imu_rolled
           (control0 [])); try reflexivity.
  repeat split; reflexivity.
Defined.

(** The body z axis of that example. *)
Example geometric_attitude_bank :
  veq (col2 (toRotationMatrix
               (u_q (snd (fst (@calculateControl libm_circle GeometricControl (ms 10) des_bank
                                 odom_rolled imu_rolled (control0 [])))))))
      (mkV3 (24 # 25) 0 (7 # 25)).
Proof. vm_compute. repeat split; reflexivity. Qed.

(** * The two calls at a period of 10 ms *)


